(** * Team roster reconciliation of rustplusplus

    Shallow embedding of [src/structures/rustPlusTeamInfoMember.ts] and
    [src/structures/rustPlusTeamInfo.ts], followed by the properties of the
    roster engine that were checked against it.

    Conventions of the embedding:
    - a JavaScript [number] holding a protobuf [float] (the coordinates) is an
      IEEE value, [spec_float]; [!==] on it is the negation of IEEE equality,
      so that [NaN !== NaN] holds and [0 !== -0] does not;
    - a JavaScript [number] holding a protobuf [uint32] (spawn and death
      times) and the milliseconds of a [Date] are integers, [Z];
    - a quotient by 1000 (seconds from milliseconds) is an exact rational;
    - [new Date()] and [Date.now()] read a wall clock; the clock is threaded
      explicitly as the sequence of its future readings;
    - a [Map] is a list of entries in insertion order;
    - records are immutable values: the source never writes to a field of an
      [AppTeamInfo_Member], it only replaces references to it. *)

From Stdlib Require Import List String ZArith QArith Bool Lia.
From Stdlib Require Import Floats.SpecFloat.
From Stdlib Require Import Permutation.
Import ListNotations.

Set Implicit Arguments.

Local Open Scope Z_scope.

(* ------------------------------------------------------------------ *)
(** ** JavaScript numbers compared with [===] and [!==] *)

Module Js.

Definition number := spec_float.

(** [a === b] on numbers. *)
Definition strictEq (a b : number) : bool := SFeqb a b.

(** [a !== b] on numbers. *)
Definition strictNeq (a b : number) : bool := negb (strictEq a b).

Definition isNaN (a : number) : bool :=
  match a with S754_nan => true | _ => false end.

(** [a > b] on two numbers of seconds, which are exact rationals here. *)
Definition gtQ (a b : Q) : bool := negb (Qle_bool a b).

End Js.

(* ------------------------------------------------------------------ *)
(** ** The wall clock *)

Module Clock.

(** The readings the clock will give, in the order they are asked for. *)
Definition t := nat -> Z.

(** A computation that may read the clock. *)
Definition Eff (A : Type) : Type := t -> A * t.

Definition ret {A} (a : A) : Eff A := fun c => (a, c).

Definition bind {A B} (m : Eff A) (k : A -> Eff B) : Eff B :=
  fun c => k (fst (m c)) (snd (m c)).

(** [new Date()], as its [getTime()]; also [Date.now()]. *)
Definition newDate : Eff Z := fun c => (c 0%nat, fun n => c (S n)).

(** A clock that reads [now] at every call. *)
Definition frozen (now : Z) : t := fun _ => now.

(** [for (const a of l) body(a)] over a state [S]. *)
Fixpoint forEach {A S} (body : A -> S -> Eff S) (l : list A) (s : S)
  : Eff S :=
  match l with
  | [] => ret s
  | a :: l' => bind (body a s) (forEach body l')
  end.

End Clock.

Notation "x <- m ;; k" := (Clock.bind m (fun x => k))
  (at level 61, m at next level, right associativity).

(* ------------------------------------------------------------------ *)
(** ** [Map<SteamId, V>]: entries in insertion order *)

Module JsMap.
Section Ops.
Variable V : Type.

Definition t := list (string * V).

Fixpoint get (k : string) (m : t) : option V :=
  match m with
  | [] => None
  | (k', v) :: m' => if String.eqb k k' then Some v else get k m'
  end.

Definition has (k : string) (m : t) : bool :=
  match get k m with Some _ => true | None => false end.

(** [set] keeps the position of an existing key and appends a new one. *)
Fixpoint set (k : string) (v : V) (m : t) : t :=
  match m with
  | [] => [(k, v)]
  | (k', v') :: m' =>
      if String.eqb k k' then (k, v) :: m' else (k', v') :: set k v m'
  end.

Fixpoint delete (k : string) (m : t) : t :=
  match m with
  | [] => []
  | (k', v') :: m' =>
      if String.eqb k k' then m' else (k', v') :: delete k m'
  end.

Definition values (m : t) : list V := map snd m.

Definition keys (m : t) : list string := map fst m.

Definition size (m : t) : nat := List.length m.

End Ops.
End JsMap.

(* ------------------------------------------------------------------ *)
(** ** The records of rustplus-ts that the roster reads *)

Module rp.

Record AppTeamInfo_Member := {
  steamId : string;
  name : string;
  x : Js.number;
  y : Js.number;
  isOnline : bool;
  spawnTime : Z;
  isAlive : bool;
  deathTime : Z
}.

(** [mapNotes] and [leaderMapNotes] are never read by the roster. *)
Record AppTeamInfo := {
  leaderSteamId : string;
  members : list AppTeamInfo_Member
}.

End rp.

(** The handle of the owning instance; only its [guildId] is read. *)
Record RustPlusInstance := { guildId : string }.

(* ------------------------------------------------------------------ *)
(** ** [RustPlusTeamInfoMember] *)

Module Member.

Record t := {
  rpInstance : RustPlusInstance;
  appTeamInfoMember : rp.AppTeamInfo_Member;
  lastMovementDate : option Z;
  wentOfflineDate : option Z;
  wasAfk : bool
}.

Definition constructor (rpi : RustPlusInstance)
  (m : rp.AppTeamInfo_Member) : t :=
  {| rpInstance := rpi;
     appTeamInfoMember := m;
     lastMovementDate := None;
     wentOfflineDate := None;
     wasAfk := false |}.

(** Field assignments [this.f = v]. *)
Definition set_appTeamInfoMember (v : rp.AppTeamInfo_Member) (self : t) :=
  {| rpInstance := rpInstance self;
     appTeamInfoMember := v;
     lastMovementDate := lastMovementDate self;
     wentOfflineDate := wentOfflineDate self;
     wasAfk := wasAfk self |}.

Definition set_lastMovementDate (v : option Z) (self : t) :=
  {| rpInstance := rpInstance self;
     appTeamInfoMember := appTeamInfoMember self;
     lastMovementDate := v;
     wentOfflineDate := wentOfflineDate self;
     wasAfk := wasAfk self |}.

Definition set_wentOfflineDate (v : option Z) (self : t) :=
  {| rpInstance := rpInstance self;
     appTeamInfoMember := appTeamInfoMember self;
     lastMovementDate := lastMovementDate self;
     wentOfflineDate := v;
     wasAfk := wasAfk self |}.

Definition set_wasAfk (v : bool) (self : t) :=
  {| rpInstance := rpInstance self;
     appTeamInfoMember := appTeamInfoMember self;
     lastMovementDate := lastMovementDate self;
     wentOfflineDate := wentOfflineDate self;
     wasAfk := v |}.

(** *** Field comparisons *)

Definition isSteamIdChanged (self : t) (m : rp.AppTeamInfo_Member) : bool :=
  negb (String.eqb (rp.steamId (appTeamInfoMember self)) (rp.steamId m)).

Definition isNameChanged (self : t) (m : rp.AppTeamInfo_Member) : bool :=
  negb (String.eqb (rp.name (appTeamInfoMember self)) (rp.name m)).

Definition isXChanged (self : t) (m : rp.AppTeamInfo_Member) : bool :=
  Js.strictNeq (rp.x (appTeamInfoMember self)) (rp.x m).

Definition isYChanged (self : t) (m : rp.AppTeamInfo_Member) : bool :=
  Js.strictNeq (rp.y (appTeamInfoMember self)) (rp.y m).

Definition isOnlineChanged (self : t) (m : rp.AppTeamInfo_Member) : bool :=
  negb (Bool.eqb (rp.isOnline (appTeamInfoMember self)) (rp.isOnline m)).

Definition isSpawnTimeChanged (self : t) (m : rp.AppTeamInfo_Member)
  : bool :=
  negb (rp.spawnTime (appTeamInfoMember self) =? rp.spawnTime m).

Definition isAliveChanged (self : t) (m : rp.AppTeamInfo_Member) : bool :=
  negb (Bool.eqb (rp.isAlive (appTeamInfoMember self)) (rp.isAlive m)).

Definition isDeathTimeChanged (self : t) (m : rp.AppTeamInfo_Member)
  : bool :=
  negb (rp.deathTime (appTeamInfoMember self) =? rp.deathTime m).

(** *** Transitions *)

Definition isGoneOnline (self : t) (m : rp.AppTeamInfo_Member) : bool :=
  Bool.eqb (rp.isOnline (appTeamInfoMember self)) false
  && Bool.eqb (rp.isOnline m) true.

Definition isGoneOffline (self : t) (m : rp.AppTeamInfo_Member) : bool :=
  Bool.eqb (rp.isOnline (appTeamInfoMember self)) true
  && Bool.eqb (rp.isOnline m) false.

Definition isGoneAlive (self : t) (m : rp.AppTeamInfo_Member) : bool :=
  Bool.eqb (rp.isAlive (appTeamInfoMember self)) false
  && Bool.eqb (rp.isAlive m) true.

Definition isGoneDead (self : t) (m : rp.AppTeamInfo_Member) : bool :=
  (Bool.eqb (rp.isAlive (appTeamInfoMember self)) true
   && Bool.eqb (rp.isAlive m) false)
  || isDeathTimeChanged self m.

Definition isMoved (self : t) (m : rp.AppTeamInfo_Member) : bool :=
  isXChanged self m || isYChanged self m.

Definition isGoneAfk (self : t) (m : rp.AppTeamInfo_Member) : bool :=
  negb (wasAfk self)
  && negb (isMoved self m)
  && rp.isOnline (appTeamInfoMember self).

(** *** The update *)

Definition updateTeamInfoMember (self : t) (m : rp.AppTeamInfo_Member)
  : Clock.Eff t :=
  self1 <- (if isGoneOffline self m
            then d <- Clock.newDate ;;
                 Clock.ret (set_wentOfflineDate (Some d) self)
            else Clock.ret self) ;;
  self2 <- (if isGoneOnline self1 m
            then d <- Clock.newDate ;;
                 Clock.ret (set_wasAfk false
                              (set_lastMovementDate (Some d) self1))
            else Clock.ret self1) ;;
  self3 <- (if isMoved self2 m
            then d <- Clock.newDate ;;
                 Clock.ret (set_wasAfk false
                              (set_lastMovementDate (Some d) self2))
            else if negb (rp.isOnline (appTeamInfoMember self2))
                    && negb (isGoneOnline self2 m)
                 then Clock.ret (set_wasAfk false self2)
                 else Clock.ret self2) ;;
  Clock.ret (set_appTeamInfoMember m self3).

(** *** Queries that read the clock *)

Section Queries.
(** [constants.AFK_TIME_SECONDS] of [src/utils/constants]. *)
Variable AFK_TIME_SECONDS : Z.
(** [secondsToFullScale] of [src/utils/timer]. *)
Variable secondsToFullScale : Q -> string -> string.

Definition isAfk (self : t) : Clock.Eff bool :=
  match lastMovementDate self with
  | None => Clock.ret false
  | Some last =>
      now <- Clock.newDate ;;
      Clock.ret (now - last >=? AFK_TIME_SECONDS)
  end.

Definition getAfkSeconds (self : t) : Clock.Eff Q :=
  match lastMovementDate self with
  | None => Clock.ret 0%Q
  | Some last =>
      now <- Clock.newDate ;;
      Clock.ret (inject_Z (now - last) / 1000)%Q
  end.

Definition getAfkTime (self : t) (ignore : string) : Clock.Eff string :=
  s <- getAfkSeconds self ;;
  Clock.ret (secondsToFullScale s ignore).

Definition getAliveSeconds (self : t) : Clock.Eff Q :=
  if rp.spawnTime (appTeamInfoMember self) =? 0 then Clock.ret 0%Q
  else now <- Clock.newDate ;;
       Clock.ret (inject_Z
                    (now - rp.spawnTime (appTeamInfoMember self) * 1000)
                  / 1000)%Q.

Definition getDeathSeconds (self : t) : Clock.Eff Q :=
  if rp.deathTime (appTeamInfoMember self) =? 0 then Clock.ret 0%Q
  else now <- Clock.newDate ;;
       Clock.ret (inject_Z
                    (now - rp.deathTime (appTeamInfoMember self) * 1000)
                  / 1000)%Q.

Definition getOfflineTime (self : t) (ignore : string)
  : Clock.Eff (option string) :=
  match wentOfflineDate self with
  | None => Clock.ret None
  | Some off =>
      now <- Clock.newDate ;;
      let seconds := (inject_Z (now - off) / 1000)%Q in
      Clock.ret (Some (secondsToFullScale seconds ignore))
  end.

(** The value of the local [seconds] of [getOfflineTime], when it is
    computed. *)
Definition getOfflineSeconds (self : t) : Clock.Eff (option Q) :=
  match wentOfflineDate self with
  | None => Clock.ret None
  | Some off =>
      now <- Clock.newDate ;;
      Clock.ret (Some (inject_Z (now - off) / 1000)%Q)
  end.

End Queries.

End Member.

(* ------------------------------------------------------------------ *)
(** ** [RustPlusTeamInfo] *)

Module TeamInfo.

Record t := {
  rpInstance : RustPlusInstance;
  appTeamInfo : rp.AppTeamInfo;
  members : JsMap.t Member.t;
  allOnline : bool;
  allOffline : bool
}.

Definition constructor (rpi : RustPlusInstance) (info : rp.AppTeamInfo)
  : t :=
  {| rpInstance := rpi;
     appTeamInfo := info;
     members := [];
     allOnline := false;
     allOffline := false |}.

Definition set_members (v : JsMap.t Member.t) (self : t) : t :=
  {| rpInstance := rpInstance self;
     appTeamInfo := appTeamInfo self;
     members := v;
     allOnline := allOnline self;
     allOffline := allOffline self |}.

Definition isLeaderSteamIdChanged (self : t) (info : rp.AppTeamInfo)
  : bool :=
  negb (String.eqb (rp.leaderSteamId (appTeamInfo self))
                   (rp.leaderSteamId info)).

Definition addMember (self : t) (m : rp.AppTeamInfo_Member) : t :=
  if JsMap.has (rp.steamId m) (members self) then self
  else set_members
         (JsMap.set (rp.steamId m)
                    (Member.constructor (rpInstance self) m)
                    (members self))
         self.

Definition removeMember (self : t) (steamId : string) : t :=
  set_members (JsMap.delete steamId (members self)) self.

Definition getMember (self : t) (steamId : string) : option Member.t :=
  JsMap.get steamId (members self).

Definition isPlayerInTeam (self : t) (steamId : string) : bool :=
  JsMap.has steamId (members self).

(** [appTeamInfo.members.find(m => m.steamId === steamId)]. *)
Definition findMember (info : rp.AppTeamInfo) (steamId : string)
  : option rp.AppTeamInfo_Member :=
  find (fun m => String.eqb (rp.steamId m) steamId) (rp.members info).

(** Truthiness of the result of [find]. *)
Definition listed (info : rp.AppTeamInfo) (steamId : string) : bool :=
  match findMember info steamId with Some _ => true | None => false end.

Definition getNewMembers (self : t) (info : rp.AppTeamInfo)
  : list rp.AppTeamInfo_Member :=
  filter (fun appMember => negb (isPlayerInTeam self (rp.steamId appMember)))
         (rp.members info).

Definition getLeftMembers (self : t) (info : rp.AppTeamInfo)
  : list rp.AppTeamInfo_Member :=
  map Member.appTeamInfoMember
      (filter (fun member =>
                 negb (listed info
                         (rp.steamId (Member.appTeamInfoMember member))))
              (JsMap.values (members self))).

Definition getReminingMembers (self : t) (info : rp.AppTeamInfo)
  : list rp.AppTeamInfo_Member :=
  map Member.appTeamInfoMember
      (filter (fun member =>
                 listed info
                   (rp.steamId (Member.appTeamInfoMember member)))
              (JsMap.values (members self))).

(** The body of the third loop of [updateTeamInfo]: the stored member is
    an object of the map, so updating it updates the entry in place. *)
Definition updateRemaining (member : rp.AppTeamInfo_Member) (self : t)
  : Clock.Eff t :=
  match getMember self (rp.steamId member) with
  | Some teamMember =>
      teamMember' <- Member.updateTeamInfoMember teamMember member ;;
      Clock.ret (set_members
                   (JsMap.set (rp.steamId member) teamMember'
                              (members self))
                   self)
  | None => Clock.ret self
  end.

(** The loop that recomputes the two flags, from [(true, true)]. *)
Definition recomputeFlags (ms : list Member.t) : bool * bool :=
  fold_left
    (fun acc member =>
       (fst acc && rp.isOnline (Member.appTeamInfoMember member),
        snd acc && negb (rp.isOnline (Member.appTeamInfoMember member))))
    ms (true, true).

(** [updateTeamInfo]. The leader check has an empty body. The colour that
    is drawn for a new member goes to the guild instance, and
    [gim.updateGuildInstance] persists that instance: neither reads or
    writes a field of the roster, and both are left out; the guild instance
    of [rpInstance.guildId] is taken to exist. *)
Definition updateTeamInfo (self : t) (info : rp.AppTeamInfo)
  : Clock.Eff t :=
  let self1 := fold_left addMember (getNewMembers self info) self in
  let self2 :=
    fold_left (fun s member => removeMember s (rp.steamId member))
              (getLeftMembers self1 info) self1 in
  self3 <- Clock.forEach updateRemaining (getReminingMembers self2 info)
                         self2 ;;
  let flags := recomputeFlags (JsMap.values (members self3)) in
  Clock.ret {| rpInstance := rpInstance self3;
               appTeamInfo := info;
               members := members self3;
               allOnline := fst flags;
               allOffline := snd flags |}.

(** The body of the loop of [getLongestAliveMember]: [longest] is replaced
    when it is null, or when [member] has been alive for longer; in the
    second case both durations are computed, the one of [member] first. *)
Definition longerAlive (member : Member.t) (longest : option Member.t)
  : Clock.Eff (option Member.t) :=
  match longest with
  | None => Clock.ret (Some member)
  | Some l =>
      a <- Member.getAliveSeconds member ;;
      b <- Member.getAliveSeconds l ;;
      Clock.ret (if Js.gtQ a b then Some member else Some l)
  end.

Definition getLongestAliveMember (self : t) : Clock.Eff (option Member.t) :=
  if Nat.eqb (JsMap.size (members self)) 0 then Clock.ret None
  else Clock.forEach longerAlive (JsMap.values (members self)) None.

End TeamInfo.

(* ------------------------------------------------------------------ *)
(** ** [CredentialsManager]: the queries over the credentials map

    The field [credentialsMap] is read by these methods and is assigned
    nowhere in the file: it is undefined, [None], or it holds an object
    keyed by steamId, given as the list of its own entries in the order in
    which [Object.keys] and [Object.entries] enumerate them; the prototype
    of that object is taken to be [Object.prototype], as for an object
    literal. A method either returns or throws. [structuredClone] of a
    record is the record. The type [Gcm] of the generated client is a
    parameter. *)

Module CredentialsManager.

Inductive outcome (A : Type) : Type :=
| Returns (a : A)
| Throws.

Arguments Returns {A} a.
Arguments Throws {A}.

Section Manager.
Variable Gcm : Type.

Record Credentials := {
  version : Z;
  steamId : string;
  gcm : Gcm;
  discordUserId : string;
  issueDate : Z;
  expireDate : Z;
  expirationNotified : bool
}.

Definition CredentialsMap := JsMap.t Credentials.

(** The object that [getDiscordUserIdToSteamIdsMap] builds from [{}]: its
    own properties, and its prototype when that is no longer
    [Object.prototype]. *)
Record DiscordUserIdToSteamIdsMap := {
  own : JsMap.t (list string);
  prototype : option (list string)
}.

(** [{}]. *)
Definition emptyObject : DiscordUserIdToSteamIdsMap :=
  {| own := []; prototype := None |}.

(** The one key of [Object.prototype] that is a setter: assigning an array
    to it replaces the prototype and creates no own property. *)
Definition protoKey : string := "__proto__".

(** [Object.hasOwn(map, key)]. *)
Definition hasOwn (map : DiscordUserIdToSteamIdsMap) (key : string) : bool :=
  JsMap.has key (own map).

(** [map[key] = value], for a key that is no own property of [map]. *)
Definition assign (map : DiscordUserIdToSteamIdsMap) (key : string)
  (value : list string) : DiscordUserIdToSteamIdsMap :=
  if String.eqb key protoKey
  then {| own := own map; prototype := Some value |}
  else {| own := JsMap.set key value (own map); prototype := prototype map |}.

(** [map[key].push(steamId)], for a key that is an own property of
    [map]. *)
Definition push (map : DiscordUserIdToSteamIdsMap) (key steamId : string)
  : DiscordUserIdToSteamIdsMap :=
  match JsMap.get key (own map) with
  | Some steamIds =>
      {| own := JsMap.set key (steamIds ++ [steamId]) (own map);
         prototype := prototype map |}
  | None => map
  end.

(** [Object.keys] of undefined throws. *)
Definition getCredentialSteamIds (credentialsMap : option CredentialsMap)
  : outcome (list string) :=
  match credentialsMap with
  | None => Throws
  | Some entries => Returns (JsMap.keys entries)
  end.

(** The names of the function-valued properties of [Object.prototype]. *)
Definition inheritedFunctions : list string :=
  ["constructor"; "__defineGetter__"; "__defineSetter__"; "hasOwnProperty";
   "__lookupGetter__"; "__lookupSetter__"; "isPrototypeOf";
   "propertyIsEnumerable"; "toString"; "valueOf"; "toLocaleString"]%string.

(** What [structuredClone] returns in [getCredentialsDeepCopy]: the copy of
    credentials, or the copy of [Object.prototype], an object without
    properties. *)
Inductive copied : Type :=
| Cloned (credentials : Credentials)
| ClonedObjectPrototype.

(** Indexing undefined throws. [this.credentialsMap[steamId]] is the own
    property, when there is one; else, under the name "__proto__", the
    prototype, which is truthy and cloned; else, under the name of an
    inherited function, that function, which [structuredClone] refuses;
    else undefined, and the result is null. *)
Definition getCredentialsDeepCopy (credentialsMap : option CredentialsMap)
  (steamId : string) : outcome (option copied) :=
  match credentialsMap with
  | None => Throws
  | Some entries =>
      match JsMap.get steamId entries with
      | Some credentials => Returns (Some (Cloned credentials))
      | None =>
          if String.eqb steamId protoKey
          then Returns (Some ClonedObjectPrototype)
          else if existsb (String.eqb steamId) inheritedFunctions
               then Throws
               else Returns None
      end
  end.

(** [credentials.discordUserId] as a property key: the copy of
    [Object.prototype] has no such property, and undefined as a key is the
    string "undefined". *)
Definition discordUserIdOf (credentials : copied) : string :=
  match credentials with
  | Cloned c => discordUserId c
  | ClonedObjectPrototype => "undefined"
  end.

(** The body of the loop of [getDiscordUserIdToSteamIdsMap]. Reading
    [discordUserId] of a null copy throws. *)
Definition addSteamId (credentialsMap : option CredentialsMap)
  (acc : outcome DiscordUserIdToSteamIdsMap) (steamId : string)
  : outcome DiscordUserIdToSteamIdsMap :=
  match acc with
  | Throws => Throws
  | Returns map =>
      match getCredentialsDeepCopy credentialsMap steamId with
      | Throws => Throws
      | Returns None => Throws
      | Returns (Some credentials) =>
          if hasOwn map (discordUserIdOf credentials)
          then Returns (push map (discordUserIdOf credentials) steamId)
          else Returns (assign map (discordUserIdOf credentials) [steamId])
      end
  end.

Definition getDiscordUserIdToSteamIdsMap
  (credentialsMap : option CredentialsMap)
  : outcome DiscordUserIdToSteamIdsMap :=
  match getCredentialSteamIds credentialsMap with
  | Throws => Throws
  | Returns steamIds =>
      fold_left (addSteamId credentialsMap) steamIds (Returns emptyObject)
  end.

(** [Object.entries] of undefined throws. *)
Definition getCredentialSteamIdsFromDiscordUserId
  (credentialsMap : option CredentialsMap) (discordUserId' : string)
  : outcome (list string) :=
  match credentialsMap with
  | None => Throws
  | Some entries =>
      Returns
        (map fst
           (filter (fun e => String.eqb (discordUserId (snd e)) discordUserId')
                   entries))
  end.

End Manager.
End CredentialsManager.

(* ------------------------------------------------------------------ *)
(** ** Concrete data used in the examples below *)

Module Sample.

Definition instance : RustPlusInstance := {| guildId := "guild" |}.

(** The doubles 0 and 1. *)
Definition zero : Js.number := S754_zero false.
Definition one : Js.number := S754_finite false 4503599627370496 (-52).

(** Member "A" online at the origin. *)
Definition a_online : rp.AppTeamInfo_Member :=
  {| rp.steamId := "A"; rp.name := "a"; rp.x := zero; rp.y := zero;
     rp.isOnline := true; rp.spawnTime := 1000; rp.isAlive := true;
     rp.deathTime := 0 |}.

(** The same member, offline. *)
Definition a_offline : rp.AppTeamInfo_Member :=
  {| rp.steamId := "A"; rp.name := "a"; rp.x := zero; rp.y := zero;
     rp.isOnline := false; rp.spawnTime := 1000; rp.isAlive := true;
     rp.deathTime := 0 |}.

(** The same member, offline and one unit further east. *)
Definition a_offline_moved : rp.AppTeamInfo_Member :=
  {| rp.steamId := "A"; rp.name := "a"; rp.x := one; rp.y := zero;
     rp.isOnline := false; rp.spawnTime := 1000; rp.isAlive := true;
     rp.deathTime := 0 |}.

Definition snapshot (ms : list rp.AppTeamInfo_Member) : rp.AppTeamInfo :=
  {| rp.leaderSteamId := "A"; rp.members := ms |}.

Definition empty : TeamInfo.t :=
  TeamInfo.constructor instance (snapshot []).

(** The roster after a first ingest that lists "A" online, read at
    millisecond 1000. *)
Definition with_a_online : TeamInfo.t :=
  fst (TeamInfo.updateTeamInfo empty (snapshot [a_online])
                               (Clock.frozen 1000)).

(** Member "A", online, whose last movement was at millisecond 0. *)
Definition still_since_zero : Member.t :=
  Member.set_lastMovementDate (Some 0)
    (Member.constructor instance a_online).

(** A clock that starts at millisecond 2000 and advances by one
    millisecond at every reading. *)
Definition ticking : Clock.t := fun n => 2000 + Z.of_nat n.

(** Member "B", online, spawned 500 seconds before "A". *)
Definition b_online : rp.AppTeamInfo_Member :=
  {| rp.steamId := "B"; rp.name := "b"; rp.x := one; rp.y := zero;
     rp.isOnline := true; rp.spawnTime := 500; rp.isAlive := true;
     rp.deathTime := 0 |}.

(** The roster after a first ingest that lists "A" and then "B". *)
Definition with_a_and_b : TeamInfo.t :=
  fst (TeamInfo.updateTeamInfo empty (snapshot [a_online; b_online])
                               (Clock.frozen 1000)).

(** A stand-in for [secondsToFullScale]. *)
Definition format (seconds : Q) (ignore : string) : string :=
  if Qle_bool seconds 1 then "short"%string else "long"%string.

(** Two credentials of discord user "u" and one of discord user "v". *)
Definition credentials (steamId user : string)
  : CredentialsManager.Credentials unit :=
  {| CredentialsManager.version := 1;
     CredentialsManager.steamId := steamId;
     CredentialsManager.gcm := tt;
     CredentialsManager.discordUserId := user;
     CredentialsManager.issueDate := 0;
     CredentialsManager.expireDate := 100;
     CredentialsManager.expirationNotified := false |}.

Definition credentialsMap : CredentialsManager.CredentialsMap unit :=
  [("1"%string, credentials "1" "u");
   ("2"%string, credentials "2" "v");
   ("3"%string, credentials "3" "u")].

(** The same, with the discord user id "__proto__" in place of "u". *)
Definition credentialsMapProto : CredentialsManager.CredentialsMap unit :=
  [("1"%string, credentials "1" "__proto__");
   ("2"%string, credentials "2" "v");
   ("3"%string, credentials "3" "__proto__")].

End Sample.

(* ------------------------------------------------------------------ *)
(** ** Vocabulary of the statements *)

(** What the roster does to a member: an update by its own stored record. *)
Definition selfUpdate (c : Clock.t) (self : Member.t) : Member.t :=
  fst (Member.updateTeamInfoMember self (Member.appTeamInfoMember self) c).

(** An entry is filed under the identifier of the record it stores. *)
Definition keyed (e : string * Member.t) : Prop :=
  rp.steamId (Member.appTeamInfoMember (snd e)) = fst e.

(** A roster as [addMember] and [removeMember] build it: no key twice, and
    every member under its own identifier. *)
Definition wf (t : TeamInfo.t) : Prop :=
  NoDup (JsMap.keys (TeamInfo.members t)) /\ Forall keyed (TeamInfo.members t).

(** The roster after the first two loops of [updateTeamInfo]. *)
Definition reconciled (t : TeamInfo.t) (info : rp.AppTeamInfo) : TeamInfo.t :=
  let self1 :=
    fold_left TeamInfo.addMember (TeamInfo.getNewMembers t info) t in
  fold_left (fun s member => TeamInfo.removeMember s (rp.steamId member))
            (TeamInfo.getLeftMembers self1 info) self1.

(** The roster after the three loops of [updateTeamInfo]. *)
Definition afterLoops (t : TeamInfo.t) (info : rp.AppTeamInfo) (c : Clock.t)
  : TeamInfo.t :=
  fst (Clock.forEach TeamInfo.updateRemaining
         (TeamInfo.getReminingMembers (reconciled t info) info)
         (reconciled t info) c).

(** How the third loop of [updateTeamInfo] changes an entry: the key stays,
    and the member is updated by its own record at some clock satisfying
    [P]. *)
Definition stepped (P : Clock.t -> Prop) (e e' : string * Member.t) : Prop :=
  fst e' = fst e /\ exists c, P c /\ snd e' = selfUpdate c (snd e).

(** The member states that the constructor and the update can produce. *)
Inductive reachable : Member.t -> Prop :=
| reachable_new rpi r : reachable (Member.constructor rpi r)
| reachable_update m r c :
    reachable m -> reachable (fst (Member.updateTeamInfoMember m r c)).

(** The rosters that the constructor and the operations on members
    produce. *)
Inductive built : TeamInfo.t -> Prop :=
| built_constructor rpi info : built (TeamInfo.constructor rpi info)
| built_addMember t r : built t -> built (TeamInfo.addMember t r)
| built_removeMember t k : built t -> built (TeamInfo.removeMember t k)
| built_updateTeamInfo t info c :
    built t -> built (fst (TeamInfo.updateTeamInfo t info c)).

(* ------------------------------------------------------------------ *)
(** ** Facts about numbers, the clock and maps *)

Lemma strictNeq_irrefl (a : Js.number) :
  Js.isNaN a = false -> Js.strictNeq a a = false.
Proof.
  unfold Js.strictNeq, Js.strictEq, SFeqb.
  destruct a as [s | s | | s m e]; simpl; try discriminate; intros _.
  - reflexivity.
  - destruct s; reflexivity.
  - destruct s; rewrite Z.compare_refl.
    + rewrite Pos.compare_cont_refl. reflexivity.
    + rewrite Pos.compare_cont_refl. reflexivity.
Qed.

Lemma strictNeq_nan (a : Js.number) :
  Js.isNaN a = true -> Js.strictNeq a a = true.
Proof. destruct a; simpl; try discriminate; reflexivity. Qed.

Section MapFacts.
Variable V : Type.
Implicit Types (m : JsMap.t V) (k : string) (v : V).

Lemma has_keys k m : JsMap.has k m = true <-> In k (JsMap.keys m).
Proof.
  unfold JsMap.has. induction m as [| [k' v'] m IH]; simpl.
  - split; [discriminate | tauto].
  - destruct (String.eqb_spec k k') as [-> | Hne].
    + split; auto.
    + rewrite IH. split; [auto | intros [E | H]; [congruence | exact H]].
Qed.

Lemma get_none_keys k m : JsMap.get k m = None <-> ~ In k (JsMap.keys m).
Proof.
  rewrite <- has_keys. unfold JsMap.has.
  destruct (JsMap.get k m); split; intros; congruence.
Qed.

Lemma get_app_skip k m1 m2 :
  ~ In k (JsMap.keys m1) -> JsMap.get k (m1 ++ m2) = JsMap.get k m2.
Proof.
  induction m1 as [| [k' v'] m1 IH]; simpl; intros H; [reflexivity |].
  destruct (String.eqb_spec k k') as [-> | Hne]; [tauto | auto].
Qed.

Lemma set_app_skip k v m1 m2 :
  ~ In k (JsMap.keys m1) ->
  JsMap.set k v (m1 ++ m2) = m1 ++ JsMap.set k v m2.
Proof.
  induction m1 as [| [k' v'] m1 IH]; simpl; intros H; [reflexivity |].
  destruct (String.eqb_spec k k') as [-> | Hne]; [tauto |].
  rewrite IH; auto.
Qed.

Lemma set_fresh k v m :
  JsMap.has k m = false -> JsMap.set k v m = m ++ [(k, v)].
Proof.
  unfold JsMap.has. induction m as [| [k' v'] m IH]; simpl; [reflexivity |].
  destruct (String.eqb k k'); [discriminate |].
  intros H. rewrite IH; auto.
Qed.

Lemma get_set_same k v m : JsMap.get k (JsMap.set k v m) = Some v.
Proof.
  induction m as [| [k' v'] m IH]; simpl.
  - rewrite String.eqb_refl. reflexivity.
  - destruct (String.eqb k k') eqn:E; simpl.
    + rewrite String.eqb_refl. reflexivity.
    + rewrite E. exact IH.
Qed.

Lemma get_set_other k k' v m :
  k <> k' -> JsMap.get k' (JsMap.set k v m) = JsMap.get k' m.
Proof.
  intros Hne. induction m as [| [k0 v0] m IH]; simpl.
  - destruct (String.eqb_spec k' k); [congruence | reflexivity].
  - destruct (String.eqb_spec k k0) as [-> | Hne0]; simpl.
    + destruct (String.eqb_spec k' k0); [congruence | reflexivity].
    + rewrite IH. reflexivity.
Qed.

Lemma keys_delete_incl k k' m :
  In k' (JsMap.keys (JsMap.delete k m)) -> In k' (JsMap.keys m).
Proof.
  induction m as [| [k0 v0] m IH]; simpl; [tauto |].
  destruct (String.eqb k k0); simpl; tauto.
Qed.

Lemma nodup_delete k m :
  NoDup (JsMap.keys m) -> NoDup (JsMap.keys (JsMap.delete k m)).
Proof.
  induction m as [| [k0 v0] m IH]; simpl; intros H; [constructor |].
  inversion H as [| ? ? Hin Hnd]; subst.
  destruct (String.eqb k k0); simpl; [exact Hnd |].
  constructor; [| auto].
  intros Hc. apply Hin. eapply keys_delete_incl. exact Hc.
Qed.

Lemma get_delete_same k m :
  NoDup (JsMap.keys m) -> JsMap.get k (JsMap.delete k m) = None.
Proof.
  induction m as [| [k0 v0] m IH]; simpl; intros H; [reflexivity |].
  inversion H as [| ? ? Hin Hnd]; subst.
  destruct (String.eqb_spec k k0) as [-> | Hne]; simpl.
  - apply get_none_keys. exact Hin.
  - destruct (String.eqb_spec k k0); [congruence | auto].
Qed.

Lemma get_delete_other k k' m :
  k <> k' -> JsMap.get k' (JsMap.delete k m) = JsMap.get k' m.
Proof.
  intros Hne. induction m as [| [k0 v0] m IH]; simpl; [reflexivity |].
  destruct (String.eqb_spec k k0) as [-> | Hne0]; simpl.
  - destruct (String.eqb_spec k' k0); [congruence | reflexivity].
  - rewrite IH. reflexivity.
Qed.

Lemma in_delete e k m :
  In e (JsMap.delete k m) -> In e m.
Proof.
  induction m as [| [k0 v0] m IH]; simpl; [tauto |].
  destruct (String.eqb k k0); simpl; tauto.
Qed.

Lemma get_in k v m : JsMap.get k m = Some v -> In (k, v) m.
Proof.
  induction m as [| [k0 v0] m IH]; simpl; [discriminate |].
  destruct (String.eqb_spec k k0) as [-> | Hne].
  - intros [= ->]. auto.
  - auto.
Qed.

Lemma in_get k v m :
  NoDup (JsMap.keys m) -> In (k, v) m -> JsMap.get k m = Some v.
Proof.
  induction m as [| [k0 v0] m IH]; simpl; intros Hnd Hin; [tauto |].
  inversion Hnd as [| ? ? Hk Hnd']; subst.
  destruct Hin as [[= -> ->] | Hin].
  - rewrite String.eqb_refl. reflexivity.
  - destruct (String.eqb_spec k k0) as [-> | Hne]; [| auto].
    exfalso. apply Hk. change k0 with (fst (k0, v)).
    apply in_map. exact Hin.
Qed.

End MapFacts.

(* ------------------------------------------------------------------ *)
(** ** Facts about one member *)

(** Runs [updateTeamInfoMember] symbolically: one case per branch taken. *)
Ltac run_update :=
  unfold Member.updateTeamInfoMember, Clock.bind, Clock.ret, Clock.newDate;
  repeat (match goal with
          | |- context [if ?b then _ else _] => destruct b eqn:?
          end; cbn [fst snd]).

Lemma isGoneOffline_self (self : Member.t) :
  Member.isGoneOffline self (Member.appTeamInfoMember self) = false.
Proof.
  unfold Member.isGoneOffline.
  destruct (rp.isOnline (Member.appTeamInfoMember self)); reflexivity.
Qed.

Lemma isGoneOnline_self (self : Member.t) :
  Member.isGoneOnline self (Member.appTeamInfoMember self) = false.
Proof.
  unfold Member.isGoneOnline.
  destruct (rp.isOnline (Member.appTeamInfoMember self)); reflexivity.
Qed.

Lemma isGoneAlive_self (self : Member.t) :
  Member.isGoneAlive self (Member.appTeamInfoMember self) = false.
Proof.
  unfold Member.isGoneAlive.
  destruct (rp.isAlive (Member.appTeamInfoMember self)); reflexivity.
Qed.

Lemma isGoneDead_self (self : Member.t) :
  Member.isGoneDead self (Member.appTeamInfoMember self) = false.
Proof.
  unfold Member.isGoneDead, Member.isDeathTimeChanged.
  rewrite Z.eqb_refl.
  destruct (rp.isAlive (Member.appTeamInfoMember self)); reflexivity.
Qed.

Lemma isMoved_self (self : Member.t) :
  Js.isNaN (rp.x (Member.appTeamInfoMember self)) = false ->
  Js.isNaN (rp.y (Member.appTeamInfoMember self)) = false ->
  Member.isMoved self (Member.appTeamInfoMember self) = false.
Proof.
  intros Hx Hy. unfold Member.isMoved, Member.isXChanged, Member.isYChanged.
  rewrite (strictNeq_irrefl _ Hx), (strictNeq_irrefl _ Hy). reflexivity.
Qed.

(** The result of [updateTeamInfoMember], field by field. The clock is read
    once when the member goes offline or online and once more when it
    moved. *)
Lemma update_eq (self : Member.t) m c :
  fst (Member.updateTeamInfoMember self m c) =
  let off := Member.isGoneOffline self m in
  let on := Member.isGoneOnline self m in
  let mv := Member.isMoved self m in
  {| Member.rpInstance := Member.rpInstance self;
     Member.appTeamInfoMember := m;
     Member.lastMovementDate :=
       if mv then Some (c (if off || on then 1%nat else 0%nat))
       else if on then Some (c 0%nat)
            else Member.lastMovementDate self;
     Member.wentOfflineDate :=
       if off then Some (c 0%nat) else Member.wentOfflineDate self;
     Member.wasAfk :=
       if mv || on || negb (rp.isOnline (Member.appTeamInfoMember self))
       then false else Member.wasAfk self |}.
Proof.
  destruct self as [rpi [id0 n0 x0 y0 on0 sp0 al0 dt0] last offd afk].
  destruct m as [id1 n1 x1 y1 on1 sp1 al1 dt1].
  unfold Member.updateTeamInfoMember, Clock.bind, Clock.ret, Clock.newDate,
    Member.isGoneOffline, Member.isGoneOnline, Member.isMoved,
    Member.isXChanged, Member.isYChanged.
  cbv zeta.
  destruct on0, on1;
    cbn [Bool.eqb andb orb negb fst snd rp.isOnline rp.x rp.y
         Member.appTeamInfoMember Member.rpInstance Member.wasAfk
         Member.lastMovementDate Member.wentOfflineDate
         Member.set_wentOfflineDate Member.set_lastMovementDate
         Member.set_wasAfk Member.set_appTeamInfoMember];
    destruct (Js.strictNeq x0 x1 || Js.strictNeq y0 y1);
    reflexivity.
Qed.

Lemma update_record (self : Member.t) m c :
  Member.appTeamInfoMember (fst (Member.updateTeamInfoMember self m c)) = m.
Proof. reflexivity. Qed.

Lemma update_rpInstance (self : Member.t) m c :
  Member.rpInstance (fst (Member.updateTeamInfoMember self m c))
  = Member.rpInstance self.
Proof. run_update; reflexivity. Qed.

Lemma update_wasAfk (self : Member.t) m c :
  Member.wasAfk self = false ->
  Member.wasAfk (fst (Member.updateTeamInfoMember self m c)) = false.
Proof. intros H. run_update; simpl; auto. Qed.

Lemma update_frozen_clock (self : Member.t) m now :
  snd (Member.updateTeamInfoMember self m (Clock.frozen now))
  = Clock.frozen now.
Proof. run_update; reflexivity. Qed.

Lemma selfUpdate_record c self :
  Member.appTeamInfoMember (selfUpdate c self)
  = Member.appTeamInfoMember self.
Proof. reflexivity. Qed.

Lemma selfUpdate_eq c self :
  selfUpdate c self =
  let r := Member.appTeamInfoMember self in
  if Member.isMoved self r
  then Member.set_appTeamInfoMember r
         (Member.set_wasAfk false
            (Member.set_lastMovementDate (Some (c 0%nat)) self))
  else if negb (rp.isOnline r)
       then Member.set_appTeamInfoMember r (Member.set_wasAfk false self)
       else Member.set_appTeamInfoMember r self.
Proof.
  unfold selfUpdate, Member.updateTeamInfoMember, Clock.bind, Clock.ret.
  rewrite isGoneOffline_self. cbn [fst snd].
  rewrite isGoneOnline_self. cbn [fst snd].
  cbv zeta.
  destruct (Member.isMoved self (Member.appTeamInfoMember self));
    [reflexivity |].
  rewrite isGoneOnline_self, andb_true_r.
  destruct (rp.isOnline (Member.appTeamInfoMember self)); reflexivity.
Qed.

Lemma selfUpdate_idempotent now self :
  selfUpdate (Clock.frozen now) (selfUpdate (Clock.frozen now) self)
  = selfUpdate (Clock.frozen now) self.
Proof.
  rewrite (selfUpdate_eq (Clock.frozen now) (selfUpdate _ self)).
  rewrite selfUpdate_record.
  rewrite (selfUpdate_eq (Clock.frozen now) self).
  destruct self as [rpi r last off afk]. cbv zeta.
  unfold Member.isMoved, Member.isXChanged, Member.isYChanged.
  cbn [Member.appTeamInfoMember].
  set (mv := Js.strictNeq (rp.x r) (rp.x r) || Js.strictNeq (rp.y r) (rp.y r)).
  destruct mv eqn:Emv; cbn [Member.appTeamInfoMember
    Member.set_appTeamInfoMember Member.set_wasAfk
    Member.set_lastMovementDate]; fold mv; rewrite ?Emv.
  - reflexivity.
  - destruct (rp.isOnline r); cbn; fold mv; rewrite ?Emv; reflexivity.
Qed.

(** A member that never had the idle flag and whose coordinates are numbers
    is left as it is by an update with its own record, at any clock. *)
Lemma selfUpdate_unchanged c self :
  Member.wasAfk self = false ->
  Js.isNaN (rp.x (Member.appTeamInfoMember self)) = false ->
  Js.isNaN (rp.y (Member.appTeamInfoMember self)) = false ->
  selfUpdate c self = self.
Proof.
  intros Hafk Hx Hy. rewrite selfUpdate_eq. cbv zeta.
  rewrite (isMoved_self _ Hx Hy).
  destruct self as [rpi r last off afk]. simpl in *. subst afk.
  destruct (rp.isOnline r); reflexivity.
Qed.

(* ------------------------------------------------------------------ *)
(** ** The representation invariant of the roster *)

Lemma wf_constructor rpi info : wf (TeamInfo.constructor rpi info).
Proof. split; simpl; constructor. Qed.

(** *** First loop: joining members *)

Lemma addMember_rpInstance t a :
  TeamInfo.rpInstance (TeamInfo.addMember t a) = TeamInfo.rpInstance t.
Proof.
  unfold TeamInfo.addMember.
  destruct (JsMap.has _ _); reflexivity.
Qed.

Lemma addMember_wf t a : wf t -> wf (TeamInfo.addMember t a).
Proof.
  intros [Hnd Hk]. unfold TeamInfo.addMember.
  destruct (JsMap.has (rp.steamId a) (TeamInfo.members t)) eqn:Hhas;
    [split; assumption |].
  unfold wf. simpl. rewrite (set_fresh _ _ _ Hhas). split.
  - unfold JsMap.keys. rewrite map_app. simpl.
    apply NoDup_app; [exact Hnd | repeat constructor; simpl; tauto |].
    intros k Hin [<- | []].
    apply has_keys in Hin. congruence.
  - apply Forall_app. split; [exact Hk |].
    constructor; [reflexivity | constructor].
Qed.

Lemma add_loop_rpInstance l : forall t,
  TeamInfo.rpInstance (fold_left TeamInfo.addMember l t)
  = TeamInfo.rpInstance t.
Proof.
  induction l as [| a l IH]; intros t; simpl; [reflexivity |].
  rewrite IH. apply addMember_rpInstance.
Qed.

Lemma add_loop_wf l : forall t,
  wf t -> wf (fold_left TeamInfo.addMember l t).
Proof.
  induction l as [| a l IH]; intros t H; simpl; [exact H |].
  apply IH, addMember_wf, H.
Qed.

Lemma add_loop_get l : forall t k,
  JsMap.get k (TeamInfo.members (fold_left TeamInfo.addMember l t)) =
  match JsMap.get k (TeamInfo.members t) with
  | Some m => Some m
  | None =>
      option_map (Member.constructor (TeamInfo.rpInstance t))
                 (find (fun m => String.eqb (rp.steamId m) k) l)
  end.
Proof.
  induction l as [| a l IH]; intros t k; simpl.
  - destruct (JsMap.get k (TeamInfo.members t)); reflexivity.
  - rewrite IH, addMember_rpInstance. unfold TeamInfo.addMember.
    destruct (JsMap.has (rp.steamId a) (TeamInfo.members t)) eqn:Hhas.
    + destruct (JsMap.get k (TeamInfo.members t)) eqn:Hget; [reflexivity |].
      destruct (String.eqb_spec (rp.steamId a) k) as [E | Hne];
        [subst k | reflexivity].
      unfold JsMap.has in Hhas. rewrite Hget in Hhas. discriminate.
    + simpl. destruct (String.eqb_spec (rp.steamId a) k) as [<- | Hne].
      * rewrite get_set_same.
        unfold JsMap.has in Hhas.
        destruct (JsMap.get (rp.steamId a) (TeamInfo.members t));
          [discriminate | reflexivity].
      * rewrite (get_set_other _ _ Hne). reflexivity.
Qed.

Lemma find_filter_agree {A} (p q : A -> bool) l :
  (forall a, p a = true -> q a = true) ->
  find p (filter q l) = find p l.
Proof.
  intros H. induction l as [| a l IH]; simpl; [reflexivity |].
  destruct (q a) eqn:Hq; simpl.
  - rewrite IH. reflexivity.
  - destruct (p a) eqn:Hp; [| exact IH].
    rewrite (H _ Hp) in Hq. discriminate.
Qed.

(** The map after the first loop of [updateTeamInfo]. *)
Lemma joined_get t info k :
  JsMap.get k (TeamInfo.members
                 (fold_left TeamInfo.addMember
                            (TeamInfo.getNewMembers t info) t)) =
  match JsMap.get k (TeamInfo.members t) with
  | Some m => Some m
  | None => option_map (Member.constructor (TeamInfo.rpInstance t))
                       (TeamInfo.findMember info k)
  end.
Proof.
  rewrite add_loop_get.
  destruct (JsMap.get k (TeamInfo.members t)) eqn:Hget; [reflexivity |].
  unfold TeamInfo.getNewMembers, TeamInfo.findMember.
  rewrite find_filter_agree; [reflexivity |].
  intros a Ha. apply String.eqb_eq in Ha. subst k.
  unfold TeamInfo.isPlayerInTeam, JsMap.has. rewrite Hget. reflexivity.
Qed.

(** *** Second loop: leaving members *)

Lemma removeMember_wf t k : wf t -> wf (TeamInfo.removeMember t k).
Proof.
  intros [Hnd Hk]. split; simpl.
  - apply nodup_delete, Hnd.
  - rewrite Forall_forall in *. intros e He. eapply Hk, in_delete, He.
Qed.

Lemma remove_loop_wf l : forall t,
  wf t ->
  wf (fold_left (fun s member => TeamInfo.removeMember s (rp.steamId member))
                l t).
Proof.
  induction l as [| a l IH]; intros t H; simpl; [exact H |].
  apply IH, removeMember_wf, H.
Qed.

Lemma remove_loop_rpInstance l : forall t,
  TeamInfo.rpInstance
    (fold_left (fun s member => TeamInfo.removeMember s (rp.steamId member))
               l t)
  = TeamInfo.rpInstance t.
Proof.
  induction l as [| a l IH]; intros t; simpl; [reflexivity |].
  rewrite IH. reflexivity.
Qed.

Lemma remove_loop_get l : forall t k,
  wf t ->
  JsMap.get k
    (TeamInfo.members
       (fold_left (fun s member => TeamInfo.removeMember s (rp.steamId member))
                  l t)) =
  if existsb (fun m => String.eqb (rp.steamId m) k) l then None
  else JsMap.get k (TeamInfo.members t).
Proof.
  induction l as [| a l IH]; intros t k Hwf; simpl; [reflexivity |].
  rewrite IH by (apply removeMember_wf, Hwf). simpl.
  destruct (String.eqb_spec (rp.steamId a) k) as [<- | Hne]; simpl.
  - rewrite get_delete_same by apply Hwf.
    destruct (existsb _ l); reflexivity.
  - rewrite (get_delete_other _ Hne). reflexivity.
Qed.

(** The map after the second loop of [updateTeamInfo]. *)
Lemma left_get t info k :
  wf t ->
  JsMap.get k
    (TeamInfo.members
       (fold_left (fun s member => TeamInfo.removeMember s (rp.steamId member))
                  (TeamInfo.getLeftMembers t info) t)) =
  if TeamInfo.listed info k then JsMap.get k (TeamInfo.members t) else None.
Proof.
  intros Hwf. rewrite remove_loop_get by exact Hwf.
  destruct (existsb _ _) eqn:E.
  - apply existsb_exists in E. destruct E as (r & Hin & Hr).
    apply String.eqb_eq in Hr. subst k.
    unfold TeamInfo.getLeftMembers in Hin.
    apply in_map_iff in Hin. destruct Hin as (m & <- & Hm).
    apply filter_In in Hm. destruct Hm as [_ Hm].
    apply negb_true_iff in Hm. rewrite Hm. reflexivity.
  - destruct (TeamInfo.listed info k) eqn:Hl; [reflexivity |].
    destruct (JsMap.get k (TeamInfo.members t)) as [m |] eqn:Hget;
      [| reflexivity].
    exfalso. apply get_in in Hget.
    assert (Hkey : rp.steamId (Member.appTeamInfoMember m) = k).
    { destruct Hwf as [_ Hk]. rewrite Forall_forall in Hk.
      apply (Hk _ Hget). }
    assert (Hex : existsb (fun m0 => String.eqb (rp.steamId m0) k)
                          (TeamInfo.getLeftMembers t info) = true).
    { apply existsb_exists. exists (Member.appTeamInfoMember m). split.
      - unfold TeamInfo.getLeftMembers. apply in_map. apply filter_In. split.
        + unfold JsMap.values. change m with (snd (k, m)).
          apply in_map. exact Hget.
        + rewrite Hkey, Hl. reflexivity.
      - apply String.eqb_eq. exact Hkey. }
    congruence.
Qed.

Lemma reconciled_wf t info : wf t -> wf (reconciled t info).
Proof. intros H. apply remove_loop_wf, add_loop_wf, H. Qed.

Lemma reconciled_rpInstance t info :
  TeamInfo.rpInstance (reconciled t info) = TeamInfo.rpInstance t.
Proof.
  unfold reconciled. cbv zeta.
  rewrite remove_loop_rpInstance. apply add_loop_rpInstance.
Qed.

Lemma reconciled_get t info k :
  wf t ->
  JsMap.get k (TeamInfo.members (reconciled t info)) =
  if TeamInfo.listed info k
  then match JsMap.get k (TeamInfo.members t) with
       | Some m => Some m
       | None => option_map (Member.constructor (TeamInfo.rpInstance t))
                            (TeamInfo.findMember info k)
       end
  else None.
Proof.
  intros Hwf. unfold reconciled. cbv zeta.
  rewrite left_get by (apply add_loop_wf, Hwf).
  rewrite joined_get. reflexivity.
Qed.

Lemma reconciled_listed t info e :
  wf t -> In e (TeamInfo.members (reconciled t info)) ->
  TeamInfo.listed info (rp.steamId (Member.appTeamInfoMember (snd e))) = true.
Proof.
  intros Hwf Hin. destruct e as [k m].
  pose proof (reconciled_wf info Hwf) as [Hnd Hk].
  rewrite Forall_forall in Hk. rewrite (Hk _ Hin). simpl.
  apply (in_get _ _ _ Hnd) in Hin.
  rewrite (reconciled_get info k Hwf) in Hin.
  destruct (TeamInfo.listed info k); [reflexivity | discriminate].
Qed.

Lemma filter_all {A} (p : A -> bool) l :
  (forall a, In a l -> p a = true) -> filter p l = l.
Proof.
  induction l as [| a l IH]; simpl; intros H; [reflexivity |].
  rewrite (H a) by auto. rewrite IH; auto.
Qed.

Lemma filter_none {A} (p : A -> bool) l :
  (forall a, In a l -> p a = false) -> filter p l = [].
Proof.
  induction l as [| a l IH]; simpl; intros H; [reflexivity |].
  rewrite (H a) by auto. apply IH. auto.
Qed.

(** After the first two loops every member is listed, so the third loop
    visits every member. *)
Lemma reconciled_remaining t info :
  wf t ->
  TeamInfo.getReminingMembers (reconciled t info) info =
  map Member.appTeamInfoMember
      (JsMap.values (TeamInfo.members (reconciled t info))).
Proof.
  intros Hwf. unfold TeamInfo.getReminingMembers. f_equal.
  apply filter_all. intros m Hm.
  unfold JsMap.values in Hm. apply in_map_iff in Hm.
  destruct Hm as (e & <- & He).
  apply (reconciled_listed _ _ Hwf He).
Qed.

Lemma forEach_cons {A S} (body : A -> S -> Clock.Eff S) a l s c :
  Clock.forEach body (a :: l) s c
  = Clock.forEach body l (fst (body a s c)) (snd (body a s c)).
Proof. reflexivity. Qed.

Lemma updateRemaining_found member t c tm :
  TeamInfo.getMember t (rp.steamId member) = Some tm ->
  TeamInfo.updateRemaining member t c =
  (TeamInfo.set_members
     (JsMap.set (rp.steamId member)
                (fst (Member.updateTeamInfoMember tm member c))
                (TeamInfo.members t)) t,
   snd (Member.updateTeamInfoMember tm member c)).
Proof.
  intros H. unfold TeamInfo.updateRemaining. rewrite H. reflexivity.
Qed.

(** *** Third loop: the update of every member by its own record *)

Section UpdateLoop.
(** A property of the clock that [updateTeamInfoMember] preserves. *)
Variable P : Clock.t -> Prop.
Hypothesis P_update : forall m r c,
  P c -> P (snd (Member.updateTeamInfoMember m r c)).

Lemma update_loop_aux : forall todo done t c,
  TeamInfo.members t = done ++ todo ->
  NoDup (JsMap.keys (done ++ todo)) ->
  Forall keyed todo ->
  P c ->
  exists todo',
    TeamInfo.members
      (fst (Clock.forEach TeamInfo.updateRemaining
              (map Member.appTeamInfoMember (JsMap.values todo)) t c))
    = done ++ todo'
    /\ Forall2 (stepped P) todo todo'
    /\ P (snd (Clock.forEach TeamInfo.updateRemaining
                 (map Member.appTeamInfoMember (JsMap.values todo)) t c))
    /\ TeamInfo.rpInstance
         (fst (Clock.forEach TeamInfo.updateRemaining
                 (map Member.appTeamInfoMember (JsMap.values todo)) t c))
       = TeamInfo.rpInstance t.
Proof.
  induction todo as [| [k m] todo IH]; intros done t c Hm Hnd Hk HP.
  - exists []. simpl. rewrite app_nil_r in *. repeat split; auto.
  - inversion Hk as [| ? ? Hkm Hk']; subst. unfold keyed in Hkm.
    simpl in Hkm.
    assert (Hfresh : ~ In k (JsMap.keys done)).
    { unfold JsMap.keys in Hnd. rewrite map_app in Hnd. simpl in Hnd.
      apply NoDup_remove_2 in Hnd. intros Hc. apply Hnd.
      apply in_or_app. left. exact Hc. }
    assert (Hget : TeamInfo.getMember t
                     (rp.steamId (Member.appTeamInfoMember m)) = Some m).
    { unfold TeamInfo.getMember. rewrite Hkm, Hm.
      rewrite get_app_skip by exact Hfresh.
      cbn [JsMap.get]. rewrite String.eqb_refl. reflexivity. }
    set (m' := fst (Member.updateTeamInfoMember m
                      (Member.appTeamInfoMember m) c)).
    set (c' := snd (Member.updateTeamInfoMember m
                      (Member.appTeamInfoMember m) c)).
    assert (Hset : JsMap.set k m' (TeamInfo.members t)
                   = (done ++ [(k, m')]) ++ todo).
    { rewrite Hm, set_app_skip by exact Hfresh.
      cbn [JsMap.set]. rewrite String.eqb_refl, <- app_assoc.
      reflexivity. }
    change (map Member.appTeamInfoMember (JsMap.values ((k, m) :: todo)))
      with (Member.appTeamInfoMember m
            :: map Member.appTeamInfoMember (JsMap.values todo)).
    rewrite forEach_cons.
    rewrite (updateRemaining_found _ _ c Hget).
    cbn [fst snd]. rewrite Hkm. fold m' c'.
    destruct (IH (done ++ [(k, m')])
                 (TeamInfo.set_members
                    (JsMap.set k m' (TeamInfo.members t)) t) c')
      as (todo' & Hmem & Hstep & HP' & Hrpi).
    + exact Hset.
    + rewrite <- app_assoc. simpl.
      unfold JsMap.keys in *. rewrite map_app in *. exact Hnd.
    + exact Hk'.
    + apply P_update, HP.
    + exists ((k, m') :: todo'). repeat split.
      * rewrite Hmem, <- app_assoc. reflexivity.
      * constructor; [| exact Hstep].
        split; [reflexivity |]. exists c. split; [exact HP | reflexivity].
      * exact HP'.
      * rewrite Hrpi. reflexivity.
Qed.

Lemma update_loop t c :
  NoDup (JsMap.keys (TeamInfo.members t)) ->
  Forall keyed (TeamInfo.members t) ->
  P c ->
  let res := Clock.forEach TeamInfo.updateRemaining
               (map Member.appTeamInfoMember
                    (JsMap.values (TeamInfo.members t))) t c in
  Forall2 (stepped P) (TeamInfo.members t) (TeamInfo.members (fst res))
  /\ P (snd res)
  /\ TeamInfo.rpInstance (fst res) = TeamInfo.rpInstance t.
Proof.
  intros Hnd Hk HP.
  destruct (@update_loop_aux (TeamInfo.members t) [] t c eq_refl Hnd Hk HP)
    as (todo' & Hmem & Hstep & HP' & Hrpi).
  cbv zeta. rewrite Hmem. simpl. auto.
Qed.

End UpdateLoop.

(* ------------------------------------------------------------------ *)
(** ** The roster after [updateTeamInfo] *)

Lemma updateTeamInfo_eq t info c :
  fst (TeamInfo.updateTeamInfo t info c) =
  {| TeamInfo.rpInstance := TeamInfo.rpInstance (afterLoops t info c);
     TeamInfo.appTeamInfo := info;
     TeamInfo.members := TeamInfo.members (afterLoops t info c);
     TeamInfo.allOnline :=
       fst (TeamInfo.recomputeFlags
              (JsMap.values (TeamInfo.members (afterLoops t info c))));
     TeamInfo.allOffline :=
       snd (TeamInfo.recomputeFlags
              (JsMap.values (TeamInfo.members (afterLoops t info c)))) |}.
Proof. reflexivity. Qed.

Lemma afterLoops_stepped t info c :
  wf t ->
  Forall2 (stepped (fun _ => True))
          (TeamInfo.members (reconciled t info))
          (TeamInfo.members (afterLoops t info c))
  /\ TeamInfo.rpInstance (afterLoops t info c) = TeamInfo.rpInstance t.
Proof.
  intros Hwf. unfold afterLoops. rewrite (reconciled_remaining info Hwf).
  destruct (reconciled_wf info Hwf) as [Hnd Hk].
  destruct (@update_loop (fun _ => True) (fun _ _ _ _ => I)
              (reconciled t info) c Hnd Hk I) as (H1 & _ & H3).
  split; [exact H1 |]. rewrite H3. apply reconciled_rpInstance.
Qed.

Lemma Forall2_is_map {A B} (f : A -> B) l l' :
  Forall2 (fun a b => b = f a) l l' -> l' = map f l.
Proof. induction 1; simpl; congruence. Qed.

Lemma afterLoops_frozen t info now :
  wf t ->
  TeamInfo.members (afterLoops t info (Clock.frozen now)) =
  map (fun e => (fst e, selfUpdate (Clock.frozen now) (snd e)))
      (TeamInfo.members (reconciled t info)).
Proof.
  intros Hwf. unfold afterLoops. rewrite (reconciled_remaining info Hwf).
  destruct (reconciled_wf info Hwf) as [Hnd Hk].
  destruct (@update_loop (fun c => c = Clock.frozen now)) with
    (t := reconciled t info) (c := Clock.frozen now) as (H1 & _ & _);
    auto.
  { intros m r c ->. apply update_frozen_clock. }
  apply Forall2_is_map.
  eapply Forall2_impl; [| exact H1].
  intros [k m] [k' m'] [Hfst (c & -> & Hsnd)]. simpl in *. congruence.
Qed.

Lemma stepped_keys P l l' :
  Forall2 (stepped P) l l' -> JsMap.keys l' = JsMap.keys l.
Proof.
  induction 1 as [| e e' l l' [Hf _] _ IH]; simpl; [reflexivity |].
  rewrite Hf, IH. reflexivity.
Qed.

Lemma stepped_get P l l' k :
  Forall2 (stepped P) l l' ->
  match JsMap.get k l' with
  | Some m' => exists m c, JsMap.get k l = Some m /\ m' = selfUpdate c m
  | None => JsMap.get k l = None
  end.
Proof.
  induction 1 as [| [k0 m0] [k0' m0'] l l' [Hf (c & _ & Hs)] _ IH];
    simpl in *; [reflexivity |].
  subst k0'. destruct (String.eqb k k0); [| exact IH].
  exists m0, c. auto.
Qed.

Lemma has_of_keys {V} k (l l' : JsMap.t V) :
  JsMap.keys l' = JsMap.keys l -> JsMap.has k l' = JsMap.has k l.
Proof.
  intros H. apply eq_true_iff_eq. rewrite !has_keys, H. tauto.
Qed.

Lemma listed_iff info k :
  TeamInfo.listed info k = true <-> In k (map rp.steamId (rp.members info)).
Proof.
  unfold TeamInfo.listed, TeamInfo.findMember.
  destruct (find _ _) as [r |] eqn:E.
  - apply find_some in E. destruct E as [Hin Hk].
    apply String.eqb_eq in Hk. subst k.
    split; [intros _; apply in_map, Hin | reflexivity].
  - split; [discriminate |]. intros Hin.
    apply in_map_iff in Hin. destruct Hin as (r & <- & Hr).
    pose proof (find_none _ _ E _ Hr) as Hn. simpl in Hn.
    rewrite String.eqb_refl in Hn. discriminate.
Qed.

Lemma reconciled_has t info k :
  wf t ->
  JsMap.has k (TeamInfo.members (reconciled t info)) = TeamInfo.listed info k.
Proof.
  intros Hwf. unfold JsMap.has. rewrite (reconciled_get info k Hwf).
  unfold TeamInfo.listed.
  destruct (TeamInfo.findMember info k); [| reflexivity].
  destruct (JsMap.get k (TeamInfo.members t)); reflexivity.
Qed.

(** Membership after an ingest is exactly being listed, at any clock. *)
Lemma isPlayerInTeam_after t info c k :
  wf t ->
  TeamInfo.isPlayerInTeam (fst (TeamInfo.updateTeamInfo t info c)) k
  = TeamInfo.listed info k.
Proof.
  intros Hwf. rewrite updateTeamInfo_eq. unfold TeamInfo.isPlayerInTeam.
  cbn [TeamInfo.members].
  destruct (afterLoops_stepped info c Hwf) as [Hs _].
  rewrite (@has_of_keys _ k _ _ (stepped_keys Hs)).
  apply reconciled_has, Hwf.
Qed.

(** The invariant is kept by an ingest, at any clock. *)
Lemma updateTeamInfo_wf t info c :
  wf t -> wf (fst (TeamInfo.updateTeamInfo t info c)).
Proof.
  intros Hwf. rewrite updateTeamInfo_eq. unfold wf. cbn [TeamInfo.members].
  destruct (afterLoops_stepped info c Hwf) as [Hs _].
  destruct (reconciled_wf info Hwf) as [Hnd Hk].
  split.
  - rewrite (stepped_keys Hs). exact Hnd.
  - clear Hnd. induction Hs as [| e e' l l' [Hf (c0 & _ & Hsnd)] _ IH];
      [constructor |].
    inversion Hk; subst. constructor; [| auto].
    unfold keyed in *. rewrite Hf, Hsnd, selfUpdate_record. assumption.
Qed.

(* ------------------------------------------------------------------ *)
(** ** Members: what an update does *)

Lemma reachable_wasAfk m : reachable m -> Member.wasAfk m = false.
Proof.
  induction 1 as [| m r c _ IH]; [reflexivity |].
  apply update_wasAfk, IH.
Qed.

(** C10. In every member state that the constructor and the update can
    produce the flag [wasAfk] is false, and [isGoneAfk] is the conjunction
    of "not moved" and "stored online flag". *)
Theorem wasAfk_is_never_set (m : Member.t) :
  reachable m ->
  Member.wasAfk m = false
  /\ forall r, Member.isGoneAfk m r
               = negb (Member.isMoved m r)
                 && rp.isOnline (Member.appTeamInfoMember m).
Proof.
  intros H. pose proof (reachable_wasAfk H) as Hafk.
  split; [exact Hafk |].
  intros r. unfold Member.isGoneAfk. rewrite Hafk. reflexivity.
Qed.

Lemma wasAfk_is_never_set_witness :
  let m := fst (Member.updateTeamInfoMember
                  (Member.constructor Sample.instance Sample.a_online)
                  Sample.a_offline Sample.ticking) in
  reachable m
  /\ Member.wasAfk m = false
  /\ forall r, Member.isGoneAfk m r
               = negb (Member.isMoved m r)
                 && rp.isOnline (Member.appTeamInfoMember m).
Proof.
  cbv zeta. split.
  - apply reachable_update, reachable_new.
  - apply wasAfk_is_never_set. apply reachable_update, reachable_new.
Defined.

(** C7. [isGoneDead] holds exactly when the stored record is alive and the
    incoming one is not, or the two death times differ; so a member that
    stays alive while its death time changes is classified as gone dead. *)
Theorem isGoneDead_iff (m : Member.t) (r : rp.AppTeamInfo_Member) :
  (Member.isGoneDead m r = true <->
   (rp.isAlive (Member.appTeamInfoMember m) = true /\ rp.isAlive r = false)
   \/ rp.deathTime r <> rp.deathTime (Member.appTeamInfoMember m))
  /\ (rp.isAlive (Member.appTeamInfoMember m) = true ->
      rp.isAlive r = true ->
      rp.deathTime r <> rp.deathTime (Member.appTeamInfoMember m) ->
      Member.isGoneDead m r = true).
Proof.
  assert (Hd : Member.isDeathTimeChanged m r = true <->
               rp.deathTime r <> rp.deathTime (Member.appTeamInfoMember m)).
  { unfold Member.isDeathTimeChanged. rewrite negb_true_iff, Z.eqb_neq.
    split; intros H E; apply H; symmetry; exact E. }
  unfold Member.isGoneDead. split.
  - rewrite orb_true_iff, andb_true_iff, Hd.
    destruct (rp.isAlive (Member.appTeamInfoMember m)), (rp.isAlive r);
      simpl; intuition congruence.
  - intros _ _ H. rewrite orb_true_iff. right. apply Hd, H.
Qed.

(** An update by a record that is offline, of a member that is online,
    stamps [wentOfflineDate] with the first reading of the clock. *)
Lemma update_went_offline (m : Member.t) r c :
  rp.isOnline (Member.appTeamInfoMember m) = true ->
  rp.isOnline r = false ->
  Member.wentOfflineDate (fst (Member.updateTeamInfoMember m r c))
  = Some (c 0%nat).
Proof.
  intros Hon Hoff. rewrite update_eq. cbv zeta.
  cbn [Member.wentOfflineDate].
  unfold Member.isGoneOffline. rewrite Hon, Hoff. reflexivity.
Qed.

(** Once [wentOfflineDate] is set, a later reading gives a positive
    number of seconds. *)
Lemma getOfflineSeconds_positive (m : Member.t) off c :
  Member.wentOfflineDate m = Some off ->
  off < c 0%nat ->
  exists q, fst (Member.getOfflineSeconds m c) = Some q /\ (0 < q)%Q.
Proof.
  intros H Hlt. unfold Member.getOfflineSeconds. rewrite H.
  eexists. split; [reflexivity |].
  unfold Qlt, Qdiv. simpl. lia.
Qed.

(** C6, as amended. For a member stored offline and an incoming record that
    is offline too, the update leaves [lastMovementDate] as it was when the
    position is unchanged, and stamps it with the clock when x or y
    differs. *)
Theorem update_offline_lastMovementDate (m : Member.t) r c :
  rp.isOnline (Member.appTeamInfoMember m) = false ->
  rp.isOnline r = false ->
  Member.lastMovementDate (fst (Member.updateTeamInfoMember m r c))
  = if Member.isMoved m r then Some (c 0%nat)
    else Member.lastMovementDate m.
Proof.
  intros Hm Hr. rewrite update_eq. cbv zeta.
  cbn [Member.lastMovementDate].
  unfold Member.isGoneOffline, Member.isGoneOnline. rewrite Hm, Hr.
  reflexivity.
Qed.

Lemma update_offline_lastMovementDate_witness :
  rp.isOnline (Member.appTeamInfoMember
                 (Member.constructor Sample.instance Sample.a_offline))
  = false
  /\ rp.isOnline Sample.a_offline_moved = false
  /\ Member.lastMovementDate
       (fst (Member.updateTeamInfoMember
               (Member.constructor Sample.instance Sample.a_offline)
               Sample.a_offline_moved Sample.ticking))
     = Some 2000.
Proof.
  split; [reflexivity | split; [reflexivity |]].
  exact (@update_offline_lastMovementDate
           (Member.constructor Sample.instance Sample.a_offline)
           Sample.a_offline_moved Sample.ticking eq_refl eq_refl).
Defined.

(** C6, as stated, fails: both records are offline, the position differs,
    and the update sets [lastMovementDate]. *)
Lemma lastMovementDate_set_while_offline :
  let m := Member.constructor Sample.instance Sample.a_offline in
  let r := Sample.a_offline_moved in
  rp.isOnline (Member.appTeamInfoMember m) = false
  /\ rp.isOnline r = false
  /\ Member.isGoneOnline m r = false
  /\ Member.lastMovementDate m = None
  /\ Member.lastMovementDate
       (fst (Member.updateTeamInfoMember m r Sample.ticking))
     = Some 2000.
Proof. cbv zeta. repeat split; reflexivity. Qed.

(* ------------------------------------------------------------------ *)
(** ** Idle time *)

(** What [isAfk] computes: the milliseconds since the last movement are
    compared with the number [AFK_TIME_SECONDS]. *)
Lemma isAfk_iff (T : Z) (m : Member.t) (c : Clock.t) :
  fst (Member.isAfk T m c) = true <->
  exists last, Member.lastMovementDate m = Some last /\ T <= c 0%nat - last.
Proof.
  unfold Member.isAfk. destruct (Member.lastMovementDate m) as [last |].
  - unfold Clock.bind, Clock.ret, Clock.newDate. cbn [fst snd].
    rewrite Z.geb_le. split.
    + intros H. exists last. auto.
    + intros (l & [= <-] & H). exact H.
  - simpl. split; [discriminate | intros (l & [=] & _)].
Qed.

(** C9, where the code departs from it: whatever positive number of
    seconds [AFK_TIME_SECONDS] holds, a member that last moved that many
    milliseconds ago is idle for [isAfk], while [getAfkSeconds] at the same
    reading is below the threshold. *)
Theorem isAfk_disagrees_with_getAfkSeconds (T : Z) :
  0 < T ->
  fst (Member.isAfk T Sample.still_since_zero (Clock.frozen T)) = true
  /\ (fst (Member.getAfkSeconds Sample.still_since_zero (Clock.frozen T))
      < inject_Z T)%Q.
Proof.
  intros HT. cbv zeta. split.
  - apply isAfk_iff. exists 0. split; [reflexivity |].
    unfold Clock.frozen. lia.
  - unfold Member.getAfkSeconds, Clock.bind, Clock.ret, Clock.newDate,
      Clock.frozen. cbn [fst snd Member.lastMovementDate
                         Member.set_lastMovementDate].
    unfold Qlt, Qdiv. simpl. lia.
Qed.

Lemma isAfk_disagrees_with_getAfkSeconds_witness :
  0 < 300
  /\ fst (Member.isAfk 300 Sample.still_since_zero (Clock.frozen 300)) = true
  /\ (fst (Member.getAfkSeconds Sample.still_since_zero (Clock.frozen 300))
      < inject_Z 300)%Q.
Proof.
  split; [lia |].
  apply (@isAfk_disagrees_with_getAfkSeconds 300). lia.
Defined.

(* ------------------------------------------------------------------ *)
(** ** The flags of the roster *)

Lemma recomputeFlags_forallb ms :
  TeamInfo.recomputeFlags ms =
  (forallb (fun m => rp.isOnline (Member.appTeamInfoMember m)) ms,
   forallb (fun m => negb (rp.isOnline (Member.appTeamInfoMember m))) ms).
Proof.
  unfold TeamInfo.recomputeFlags.
  assert (H : forall ms a b,
    fold_left
      (fun acc member =>
         (fst acc && rp.isOnline (Member.appTeamInfoMember member),
          snd acc && negb (rp.isOnline (Member.appTeamInfoMember member))))
      ms (a, b)
    = (a && forallb (fun m => rp.isOnline (Member.appTeamInfoMember m)) ms,
       b && forallb
              (fun m => negb (rp.isOnline (Member.appTeamInfoMember m)))
              ms)).
  { clear ms. induction ms as [| m ms IH]; intros a b; simpl.
    - rewrite !andb_true_r. reflexivity.
    - rewrite IH, !andb_assoc. reflexivity. }
  rewrite H. reflexivity.
Qed.

(** C3, as amended. When the member map is empty after an ingest, the two
    recomputed flags are both true. *)
Theorem flags_of_empty_roster (t : TeamInfo.t) info c :
  TeamInfo.members (fst (TeamInfo.updateTeamInfo t info c)) = [] ->
  TeamInfo.allOnline (fst (TeamInfo.updateTeamInfo t info c)) = true
  /\ TeamInfo.allOffline (fst (TeamInfo.updateTeamInfo t info c)) = true.
Proof.
  rewrite updateTeamInfo_eq. cbn [TeamInfo.members TeamInfo.allOnline
                                   TeamInfo.allOffline].
  intros ->. split; reflexivity.
Qed.

Lemma flags_of_empty_roster_witness :
  TeamInfo.members
    (fst (TeamInfo.updateTeamInfo Sample.with_a_online (Sample.snapshot [])
                                  Sample.ticking)) = []
  /\ TeamInfo.allOnline
       (fst (TeamInfo.updateTeamInfo Sample.with_a_online (Sample.snapshot [])
                                     Sample.ticking)) = true
  /\ TeamInfo.allOffline
       (fst (TeamInfo.updateTeamInfo Sample.with_a_online (Sample.snapshot [])
                                     Sample.ticking)) = true.
Proof.
  split; [reflexivity |].
  apply (@flags_of_empty_roster Sample.with_a_online (Sample.snapshot [])
                                Sample.ticking).
  reflexivity.
Defined.

(** C3, as stated, fails: the last member leaves, the map is empty after
    the ingest, and the flags are not both false. *)
Lemma flags_of_empty_roster_not_false :
  let t' := fst (TeamInfo.updateTeamInfo Sample.with_a_online
                   (Sample.snapshot []) Sample.ticking) in
  TeamInfo.members t' = []
  /\ ~ (TeamInfo.allOnline t' = false /\ TeamInfo.allOffline t' = false).
Proof.
  cbv zeta. split; [reflexivity |]. intros [H _]. discriminate H.
Qed.

(* ------------------------------------------------------------------ *)
(** ** Membership *)

(** C8. After an ingest into a well-formed roster of a snapshot whose
    identifiers are pairwise distinct, [isPlayerInTeam] holds of exactly the
    identifiers the snapshot lists: a listed identifier that was absent has
    been added, and a present one that is not listed has been removed. The
    distinctness of the identifiers is not used. *)
Theorem membership_after_ingest (t : TeamInfo.t) info c (k : string) :
  wf t ->
  NoDup (map rp.steamId (rp.members info)) ->
  let t' := fst (TeamInfo.updateTeamInfo t info c) in
  (TeamInfo.isPlayerInTeam t' k = true
   <-> In k (map rp.steamId (rp.members info)))
  /\ (TeamInfo.isPlayerInTeam t k = false ->
      In k (map rp.steamId (rp.members info)) ->
      TeamInfo.isPlayerInTeam t' k = true)
  /\ (TeamInfo.isPlayerInTeam t k = true ->
      ~ In k (map rp.steamId (rp.members info)) ->
      TeamInfo.isPlayerInTeam t' k = false).
Proof.
  intros Hwf _. cbv zeta. rewrite (isPlayerInTeam_after info c k Hwf).
  rewrite <- listed_iff. repeat split; auto.
  intros _ H. destruct (TeamInfo.listed info k); [tauto | reflexivity].
Qed.

Lemma membership_after_ingest_witness :
  wf Sample.with_a_online
  /\ NoDup (map rp.steamId (rp.members (Sample.snapshot [Sample.a_offline])))
  /\ (TeamInfo.isPlayerInTeam
        (fst (TeamInfo.updateTeamInfo Sample.with_a_online
                (Sample.snapshot [Sample.a_offline]) Sample.ticking))
        "A" = true
      <-> In "A"%string
            (map rp.steamId
                 (rp.members (Sample.snapshot [Sample.a_offline])))).
Proof.
  assert (Hwf : wf Sample.with_a_online).
  { apply updateTeamInfo_wf, wf_constructor. }
  assert (Hnd : NoDup (map rp.steamId
                         (rp.members (Sample.snapshot [Sample.a_offline])))).
  { simpl. repeat constructor. simpl. tauto. }
  split; [exact Hwf | split; [exact Hnd |]].
  exact (proj1 (@membership_after_ingest Sample.with_a_online
                  (Sample.snapshot [Sample.a_offline]) Sample.ticking "A"
                  Hwf Hnd)).
Defined.

(* ------------------------------------------------------------------ *)
(** ** The stored records after an ingest *)

(** A member that was in the roster before the ingest and is still listed
    keeps the record it had: the third loop hands every member the record
    it already stores. *)
Lemma stored_record_kept (t : TeamInfo.t) info c k m :
  wf t ->
  JsMap.get k (TeamInfo.members t) = Some m ->
  TeamInfo.listed info k = true ->
  exists m',
    TeamInfo.getMember (fst (TeamInfo.updateTeamInfo t info c)) k = Some m'
    /\ Member.appTeamInfoMember m' = Member.appTeamInfoMember m.
Proof.
  intros Hwf Hget Hl. rewrite updateTeamInfo_eq. unfold TeamInfo.getMember.
  cbn [TeamInfo.members].
  destruct (afterLoops_stepped info c Hwf) as [Hs _].
  pose proof (stepped_get k Hs) as H.
  rewrite (reconciled_get info k Hwf), Hl, Hget in H.
  destruct (JsMap.get k (TeamInfo.members (afterLoops t info c)))
    as [m' |]; [| discriminate].
  destruct H as (m0 & c0 & [= <-] & ->).
  exists (selfUpdate c0 m). split; reflexivity.
Qed.

(** A member that joins gets the record of the snapshot, the first one
    listed under its identifier. *)
Lemma joined_record (t : TeamInfo.t) info c k r :
  wf t ->
  TeamInfo.isPlayerInTeam t k = false ->
  TeamInfo.findMember info k = Some r ->
  exists c0,
    TeamInfo.getMember (fst (TeamInfo.updateTeamInfo t info c)) k
    = Some (selfUpdate c0 (Member.constructor (TeamInfo.rpInstance t) r)).
Proof.
  intros Hwf Hnot Hfind. rewrite updateTeamInfo_eq.
  unfold TeamInfo.getMember. cbn [TeamInfo.members].
  destruct (afterLoops_stepped info c Hwf) as [Hs _].
  pose proof (stepped_get k Hs) as H.
  rewrite (reconciled_get info k Hwf) in H.
  unfold TeamInfo.listed in H. rewrite Hfind in H.
  unfold TeamInfo.isPlayerInTeam, JsMap.has in Hnot.
  destruct (JsMap.get k (TeamInfo.members t)); [discriminate |].
  simpl in H.
  destruct (JsMap.get k (TeamInfo.members (afterLoops t info c)))
    as [m' |]; [| discriminate].
  destruct H as (m0 & c0 & [= <-] & ->).
  exists c0. reflexivity.
Qed.

(** C1, where the code departs from it: "A" is stored online, the snapshot
    lists "A" offline, and after the ingest the stored record of "A" is
    still the old one, not the record of the snapshot. *)
Theorem stored_record_not_refreshed :
  let info := Sample.snapshot [Sample.a_offline] in
  let t' := fst (TeamInfo.updateTeamInfo Sample.with_a_online info
                                         Sample.ticking) in
  TeamInfo.findMember info "A" = Some Sample.a_offline
  /\ option_map Member.appTeamInfoMember (TeamInfo.getMember t' "A")
     = Some Sample.a_online
  /\ rp.isOnline Sample.a_online <> rp.isOnline Sample.a_offline.
Proof. cbv zeta. repeat split; try reflexivity. discriminate. Qed.

(** C2, where the code departs from it: "A" is stored online, the snapshot
    lists "A" offline, and after the ingest [wentOfflineDate] is still
    unset, so that [getOfflineTime] returns null at every later reading. *)
Theorem went_offline_not_detected
  (secondsToFullScale : Q -> string -> string) (ignore : string)
  (later : Clock.t) :
  let info := Sample.snapshot [Sample.a_offline] in
  let t' := fst (TeamInfo.updateTeamInfo Sample.with_a_online info
                                         Sample.ticking) in
  exists m,
    TeamInfo.getMember Sample.with_a_online "A"
    = Some (Member.constructor Sample.instance Sample.a_online)
    /\ TeamInfo.getMember t' "A" = Some m
    /\ Member.wentOfflineDate m = None
    /\ fst (Member.getOfflineTime secondsToFullScale m ignore later) = None.
Proof.
  cbv zeta. eexists. split; [reflexivity |].
  split; [reflexivity |]. split; reflexivity.
Qed.

(** C5, where the code departs from it: member "A" joins online and the
    same snapshot is ingested again and again; before each of these ingests
    [isGoneAfk] holds of the stored member and the record of the snapshot,
    and [wasAfk] is false throughout. The same holds of a member that is
    updated directly with the unchanged record. *)
Theorem isGoneAfk_on_every_ingest :
  let info := Sample.snapshot [Sample.a_online] in
  let idle t :=
    option_map (fun m => (Member.isGoneAfk m Sample.a_online,
                          Member.wasAfk m))
               (TeamInfo.getMember t "A") in
  let t1 := Sample.with_a_online in
  let t2 := fst (TeamInfo.updateTeamInfo t1 info Sample.ticking) in
  let t3 := fst (TeamInfo.updateTeamInfo t2 info Sample.ticking) in
  let m1 := Member.constructor Sample.instance Sample.a_online in
  let m2 := fst (Member.updateTeamInfoMember m1 Sample.a_online
                                             Sample.ticking) in
  let m3 := fst (Member.updateTeamInfoMember m2 Sample.a_online
                                             Sample.ticking) in
  idle t1 = Some (true, false)
  /\ idle t2 = Some (true, false)
  /\ idle t3 = Some (true, false)
  /\ Member.isGoneAfk m1 Sample.a_online = true
  /\ Member.isGoneAfk m2 Sample.a_online = true
  /\ Member.isGoneAfk m3 Sample.a_online = true.
Proof. cbv zeta. repeat split; reflexivity. Qed.

(** In general: a reachable member that is online is reported as gone idle
    by every record that shows no movement, before and after the update by
    that record. *)
Lemma isGoneAfk_again (m : Member.t) r c :
  reachable m ->
  rp.isOnline (Member.appTeamInfoMember m) = true ->
  rp.isOnline r = true ->
  Member.isMoved m r = false ->
  Js.isNaN (rp.x r) = false -> Js.isNaN (rp.y r) = false ->
  Member.isGoneAfk m r = true
  /\ Member.isGoneAfk (fst (Member.updateTeamInfoMember m r c)) r = true.
Proof.
  intros Hreach Hon Hr Hmv Hx Hy. split.
  - unfold Member.isGoneAfk.
    rewrite (reachable_wasAfk Hreach), Hmv, Hon. reflexivity.
  - unfold Member.isGoneAfk.
    rewrite (reachable_wasAfk (reachable_update r c Hreach)).
    unfold Member.isMoved, Member.isXChanged, Member.isYChanged.
    rewrite update_record, Hr.
    rewrite (strictNeq_irrefl _ Hx), (strictNeq_irrefl _ Hy). reflexivity.
Qed.

(* ------------------------------------------------------------------ *)
(** ** The same snapshot twice *)

(** Once a snapshot has been ingested, ingesting it again adds nobody and
    removes nobody. *)
Lemma reconciled_again (t : TeamInfo.t) info c :
  wf t ->
  reconciled (fst (TeamInfo.updateTeamInfo t info c)) info
  = fst (TeamInfo.updateTeamInfo t info c).
Proof.
  intros Hwf.
  set (t1 := fst (TeamInfo.updateTeamInfo t info c)).
  assert (Hin : forall k, TeamInfo.isPlayerInTeam t1 k
                          = TeamInfo.listed info k)
    by (intros k; apply isPlayerInTeam_after, Hwf).
  pose proof (updateTeamInfo_wf info c Hwf) as Hwf1. fold t1 in Hwf1.
  unfold reconciled. cbv zeta.
  assert (Hnew : TeamInfo.getNewMembers t1 info = []).
  { apply filter_none. intros a Ha. rewrite Hin.
    apply negb_false_iff, listed_iff, in_map, Ha. }
  rewrite Hnew. cbn [fold_left].
  assert (Hleft : TeamInfo.getLeftMembers t1 info = []).
  { unfold TeamInfo.getLeftMembers. rewrite filter_none; [reflexivity |].
    intros m Hm. apply negb_false_iff.
    unfold JsMap.values in Hm. apply in_map_iff in Hm.
    destruct Hm as ([k m0] & <- & He). destruct Hwf1 as [Hnd Hk].
    rewrite Forall_forall in Hk. rewrite (Hk _ He). simpl.
    rewrite <- Hin. unfold TeamInfo.isPlayerInTeam, JsMap.has.
    rewrite (in_get _ _ _ Hnd He). reflexivity. }
  rewrite Hleft. reflexivity.
Qed.

Lemma get_map_values {V} (f : V -> V) k (l : JsMap.t V) :
  JsMap.get k (map (fun e => (fst e, f (snd e))) l)
  = option_map f (JsMap.get k l).
Proof.
  induction l as [| [k0 v0] l IH]; simpl; [reflexivity |].
  destruct (String.eqb k k0); [reflexivity | exact IH].
Qed.

(** C4, as amended. A snapshot is ingested into a well-formed roster and
    then ingested again, the clock reading [now] both times. The second
    ingest leaves the roster, and so every field of every member, as the
    first one left it. For a member that joined on the first ingest, the
    stored record is the record of the snapshot, and against that record
    [isGoneOnline], [isGoneOffline], [isGoneAlive] and [isGoneDead] are
    false; when its coordinates are numbers, [isMoved] is false as well,
    and [isGoneAfk] is true exactly when the record is online. *)
Theorem same_snapshot_twice (t : TeamInfo.t) info now :
  wf t ->
  let t1 := fst (TeamInfo.updateTeamInfo t info (Clock.frozen now)) in
  let t2 := fst (TeamInfo.updateTeamInfo t1 info (Clock.frozen now)) in
  t2 = t1
  /\ forall k r,
       TeamInfo.isPlayerInTeam t k = false ->
       TeamInfo.findMember info k = Some r ->
       exists m,
         TeamInfo.getMember t1 k = Some m
         /\ Member.appTeamInfoMember m = r
         /\ Member.isGoneOnline m r = false
         /\ Member.isGoneOffline m r = false
         /\ Member.isGoneAlive m r = false
         /\ Member.isGoneDead m r = false
         /\ (Js.isNaN (rp.x r) = false -> Js.isNaN (rp.y r) = false ->
             Member.isMoved m r = false
             /\ Member.isGoneAfk m r = rp.isOnline r).
Proof.
  intros Hwf. cbv zeta.
  set (t1 := fst (TeamInfo.updateTeamInfo t info (Clock.frozen now))).
  pose proof (updateTeamInfo_wf info (Clock.frozen now) Hwf) as Hwf1.
  fold t1 in Hwf1.
  split.
  - assert (Hmem : TeamInfo.members (afterLoops t1 info (Clock.frozen now))
                   = TeamInfo.members t1).
    { rewrite (afterLoops_frozen info now Hwf1).
      unfold t1 at 1. rewrite (reconciled_again info (Clock.frozen now) Hwf).
      fold t1. unfold t1. rewrite updateTeamInfo_eq.
      cbn [TeamInfo.members].
      rewrite (afterLoops_frozen info now Hwf), map_map.
      apply map_ext. intros [k m]. cbn [fst snd].
      rewrite selfUpdate_idempotent. reflexivity. }
    assert (Hrpi : TeamInfo.rpInstance
                     (afterLoops t1 info (Clock.frozen now))
                   = TeamInfo.rpInstance t1)
      by apply (afterLoops_stepped info (Clock.frozen now) Hwf1).
    rewrite (updateTeamInfo_eq t1). rewrite Hmem, Hrpi.
    unfold t1. rewrite updateTeamInfo_eq. reflexivity.
  - intros k r Hnot Hfind.
    destruct (joined_record info (Clock.frozen now) k Hwf Hnot Hfind)
      as (c0 & Hget).
    fold t1 in Hget. eexists. split; [exact Hget |].
    set (m := selfUpdate c0 (Member.constructor (TeamInfo.rpInstance t) r)).
    assert (Hrec : Member.appTeamInfoMember m = r) by reflexivity.
    assert (Hafk : Member.wasAfk m = false)
      by (apply update_wasAfk; reflexivity).
    clearbody m. clear Hget. subst r.
    split; [reflexivity |].
    split; [apply isGoneOnline_self |].
    split; [apply isGoneOffline_self |].
    split; [apply isGoneAlive_self |].
    split; [apply isGoneDead_self |].
    intros Hx Hy. pose proof (isMoved_self m Hx Hy) as Hmv.
    split; [exact Hmv |].
    unfold Member.isGoneAfk. rewrite Hafk, Hmv. reflexivity.
Qed.

Lemma same_snapshot_twice_witness :
  wf Sample.empty
  /\ fst (TeamInfo.updateTeamInfo Sample.with_a_online
            (Sample.snapshot [Sample.a_online]) (Clock.frozen 1000))
     = Sample.with_a_online.
Proof.
  split; [apply wf_constructor |].
  exact (proj1 (@same_snapshot_twice Sample.empty
                  (Sample.snapshot [Sample.a_online]) 1000
                  (wf_constructor _ _))).
Defined.

(** C4, as stated, fails: "A" joins online on the first ingest, and on the
    second ingest of the same snapshot [isGoneAfk] holds of the stored
    member and the record of the snapshot. *)
Lemma same_snapshot_twice_is_idle :
  let info := Sample.snapshot [Sample.a_online] in
  let t1 := fst (TeamInfo.updateTeamInfo Sample.empty info
                                         (Clock.frozen 1000)) in
  exists m,
    TeamInfo.getMember t1 "A" = Some m
    /\ TeamInfo.findMember info "A" = Some Sample.a_online
    /\ Member.isGoneAfk m Sample.a_online = true.
Proof. cbv zeta. eexists. repeat split; reflexivity. Qed.

(* ------------------------------------------------------------------ *)
(** ** Further properties of a member *)

(** X1. A change of the online flag is exactly one of the two transitions
    [isGoneOnline] and [isGoneOffline], which exclude each other; a change
    of the alive flag is reported by [isGoneAlive] or [isGoneDead], and
    [isGoneDead] without a change of the alive flag means that the death
    time changed. *)
Theorem flag_changes_are_transitions (m : Member.t)
  (r : rp.AppTeamInfo_Member) :
  Member.isOnlineChanged m r
  = Member.isGoneOnline m r || Member.isGoneOffline m r
  /\ Member.isGoneOnline m r && Member.isGoneOffline m r = false
  /\ (Member.isAliveChanged m r = true ->
      Member.isGoneAlive m r = true \/ Member.isGoneDead m r = true)
  /\ Member.isGoneAlive m r && Member.isAliveChanged m r
     = Member.isGoneAlive m r
  /\ (Member.isGoneDead m r = true -> Member.isAliveChanged m r = false ->
      Member.isDeathTimeChanged m r = true).
Proof.
  unfold Member.isOnlineChanged, Member.isGoneOnline, Member.isGoneOffline,
    Member.isAliveChanged, Member.isGoneAlive, Member.isGoneDead.
  destruct (rp.isOnline (Member.appTeamInfoMember m)), (rp.isOnline r),
    (rp.isAlive (Member.appTeamInfoMember m)), (rp.isAlive r);
    simpl; repeat split; auto; try discriminate.
Qed.

(** X2. When a member that is stored online is updated by a record that is
    offline, [getOfflineTime] is from then on the formatted time since the
    clock reading of that update, and that time is positive at every later
    reading. *)
Theorem offline_time_after_going_offline
  (secondsToFullScale : Q -> string -> string) (ignore : string)
  (m : Member.t) (r : rp.AppTeamInfo_Member) (c later : Clock.t) :
  rp.isOnline (Member.appTeamInfoMember m) = true ->
  rp.isOnline r = false ->
  fst (Member.getOfflineTime secondsToFullScale
         (fst (Member.updateTeamInfoMember m r c)) ignore later)
  = Some (secondsToFullScale
            (inject_Z (later 0%nat - c 0%nat) / 1000)%Q ignore)
  /\ (c 0%nat < later 0%nat ->
      (0 < inject_Z (later 0%nat - c 0%nat) / 1000)%Q).
Proof.
  intros Hon Hoff. split.
  - unfold Member.getOfflineTime.
    rewrite (update_went_offline _ _ c Hon Hoff). reflexivity.
  - intros Hlt. unfold Qlt, Qdiv. simpl. lia.
Qed.

Lemma offline_time_after_going_offline_witness :
  rp.isOnline (Member.appTeamInfoMember
                 (Member.constructor Sample.instance Sample.a_online)) = true
  /\ rp.isOnline Sample.a_offline = false
  /\ fst (Member.getOfflineTime Sample.format
            (fst (Member.updateTeamInfoMember
                    (Member.constructor Sample.instance Sample.a_online)
                    Sample.a_offline (Clock.frozen 1000)))
            "" Sample.ticking)
     = Some "short"%string.
Proof.
  split; [reflexivity | split; [reflexivity |]].
  exact (proj1 (@offline_time_after_going_offline
                  Sample.format ""%string
                  (Member.constructor Sample.instance Sample.a_online)
                  Sample.a_offline (Clock.frozen 1000) Sample.ticking
                  eq_refl eq_refl)).
Defined.

(** X3. After an update, [getOfflineTime] is null exactly when the update
    was no transition to offline and no offline date was stored before; so
    a member that joins while offline has no offline time. *)
Theorem offline_time_null_iff
  (secondsToFullScale : Q -> string -> string) (ignore : string)
  (m : Member.t) (r : rp.AppTeamInfo_Member) (c later : Clock.t) :
  fst (Member.getOfflineTime secondsToFullScale
         (fst (Member.updateTeamInfoMember m r c)) ignore later) = None
  <-> Member.isGoneOffline m r = false /\ Member.wentOfflineDate m = None.
Proof.
  unfold Member.getOfflineTime. rewrite update_eq. cbv zeta.
  cbn [Member.wentOfflineDate].
  destruct (Member.isGoneOffline m r).
  - simpl. split; [discriminate | intros [H _]; discriminate H].
  - destruct (Member.wentOfflineDate m); simpl.
    + split; [discriminate | intros [_ H]; discriminate H].
    + split; auto.
Qed.

(** X4. An update by a record that moved, or that brings the member
    online, stamps [lastMovementDate] with a clock reading of that update
    (the first or the second one) and clears [wasAfk]; the member is then
    not idle for [isAfk] at any reading less than [AFK_TIME_SECONDS] after
    the stamp. *)
Theorem movement_restarts_idle_clock (T : Z) (m : Member.t)
  (r : rp.AppTeamInfo_Member) (c : Clock.t) :
  Member.isMoved m r || Member.isGoneOnline m r = true ->
  exists i : nat,
    (i <= 1)%nat
    /\ Member.lastMovementDate (fst (Member.updateTeamInfoMember m r c))
       = Some (c i)
    /\ Member.wasAfk (fst (Member.updateTeamInfoMember m r c)) = false
    /\ forall later : Clock.t,
         later 0%nat - c i < T ->
         fst (Member.isAfk T (fst (Member.updateTeamInfoMember m r c)) later)
         = false.
Proof.
  intros H. rewrite update_eq. cbv zeta.
  set (i := if Member.isMoved m r
            then if Member.isGoneOffline m r || Member.isGoneOnline m r
                 then 1%nat else 0%nat
            else 0%nat).
  exists i. split; [| split; [| split]].
  - subst i. destruct (Member.isMoved m r);
      [destruct (Member.isGoneOffline m r || Member.isGoneOnline m r) |];
      lia.
  - subst i. cbn [Member.lastMovementDate].
    destruct (Member.isMoved m r); [reflexivity |].
    simpl in H. rewrite H. reflexivity.
  - cbn [Member.wasAfk].
    destruct (Member.isMoved m r), (Member.isGoneOnline m r);
      try reflexivity. discriminate H.
  - intros later Hlt. apply not_true_is_false. intros Hafk.
    apply isAfk_iff in Hafk. destruct Hafk as (last & Hlast & Hle).
    cbn [Member.lastMovementDate] in Hlast. subst i.
    destruct (Member.isMoved m r).
    + injection Hlast as <-. lia.
    + simpl in H. rewrite H in Hlast. injection Hlast as <-. lia.
Qed.

Lemma movement_restarts_idle_clock_witness :
  exists i : nat,
    (i <= 1)%nat
    /\ Member.lastMovementDate
         (fst (Member.updateTeamInfoMember
                 (Member.constructor Sample.instance Sample.a_offline)
                 Sample.a_online Sample.ticking))
       = Some (Sample.ticking i)
    /\ Member.wasAfk
         (fst (Member.updateTeamInfoMember
                 (Member.constructor Sample.instance Sample.a_offline)
                 Sample.a_online Sample.ticking)) = false
    /\ forall later : Clock.t,
         later 0%nat - Sample.ticking i < 300 ->
         fst (Member.isAfk 300
                (fst (Member.updateTeamInfoMember
                        (Member.constructor Sample.instance Sample.a_offline)
                        Sample.a_online Sample.ticking)) later)
         = false.
Proof.
  exact (@movement_restarts_idle_clock 300
           (Member.constructor Sample.instance Sample.a_offline)
           Sample.a_online Sample.ticking eq_refl).
Defined.

(** X5. An update by a record that did not move and does not bring the
    member online keeps [lastMovementDate]; a member that was idle for
    [isAfk] before such an update is idle after it, at every reading that is
    not earlier. *)
Theorem quiet_update_keeps_idle (T : Z) (m : Member.t)
  (r : rp.AppTeamInfo_Member) (c before later : Clock.t) :
  Member.isMoved m r = false ->
  Member.isGoneOnline m r = false ->
  Member.lastMovementDate (fst (Member.updateTeamInfoMember m r c))
  = Member.lastMovementDate m
  /\ (fst (Member.isAfk T m before) = true ->
      before 0%nat <= later 0%nat ->
      fst (Member.isAfk T (fst (Member.updateTeamInfoMember m r c)) later)
      = true).
Proof.
  intros Hmv Hon.
  assert (Hlast : Member.lastMovementDate
                    (fst (Member.updateTeamInfoMember m r c))
                  = Member.lastMovementDate m).
  { rewrite update_eq. cbv zeta. cbn [Member.lastMovementDate].
    rewrite Hmv, Hon. reflexivity. }
  split; [exact Hlast |].
  intros Hafk Hle. apply isAfk_iff in Hafk.
  destruct Hafk as (last & Hl & Hge).
  apply isAfk_iff. exists last. rewrite Hlast. split; [exact Hl | lia].
Qed.

Lemma quiet_update_keeps_idle_witness :
  Member.isMoved Sample.still_since_zero Sample.a_online = false
  /\ Member.isGoneOnline Sample.still_since_zero Sample.a_online = false
  /\ Member.lastMovementDate
       (fst (Member.updateTeamInfoMember Sample.still_since_zero
               Sample.a_online Sample.ticking))
     = Some 0.
Proof.
  split; [reflexivity | split; [reflexivity |]].
  exact (proj1 (@quiet_update_keeps_idle 300 Sample.still_since_zero
                  Sample.a_online Sample.ticking Sample.ticking
                  Sample.ticking eq_refl eq_refl)).
Defined.

(* ------------------------------------------------------------------ *)
(** ** Further properties of the roster: members in and out *)

Lemma delete_absent {V} k (m : JsMap.t V) :
  JsMap.has k m = false -> JsMap.delete k m = m.
Proof.
  unfold JsMap.has. induction m as [| [k0 v0] m IH]; simpl; [reflexivity |].
  destruct (String.eqb k k0); [discriminate |].
  intros H. rewrite IH; auto.
Qed.

Lemma delete_appended {V} k (v : V) (m : JsMap.t V) :
  JsMap.has k m = false -> JsMap.delete k (m ++ [(k, v)]) = m.
Proof.
  unfold JsMap.has. induction m as [| [k0 v0] m IH]; simpl.
  - rewrite String.eqb_refl. reflexivity.
  - destruct (String.eqb k k0); [discriminate |].
    intros H. rewrite IH; auto.
Qed.

Lemma set_members_same (t : TeamInfo.t) :
  TeamInfo.set_members (TeamInfo.members t) t = t.
Proof. destruct t; reflexivity. Qed.

(** X6. [addMember] followed by [getMember] of the same steamId gives the
    member that was already stored under it, with its dates, or else a
    member constructed from the record; no other steamId is affected, and
    adding a steamId that is present leaves the roster as it is. *)
Theorem addMember_then_getMember (t : TeamInfo.t)
  (r : rp.AppTeamInfo_Member) :
  TeamInfo.getMember (TeamInfo.addMember t r) (rp.steamId r)
  = Some (match TeamInfo.getMember t (rp.steamId r) with
          | Some m => m
          | None => Member.constructor (TeamInfo.rpInstance t) r
          end)
  /\ (forall k, k <> rp.steamId r ->
      TeamInfo.getMember (TeamInfo.addMember t r) k = TeamInfo.getMember t k)
  /\ (TeamInfo.isPlayerInTeam t (rp.steamId r) = true ->
      TeamInfo.addMember t r = t).
Proof.
  unfold TeamInfo.getMember, TeamInfo.addMember, TeamInfo.isPlayerInTeam,
    JsMap.has.
  destruct (JsMap.get (rp.steamId r) (TeamInfo.members t)) as [m |] eqn:Hget.
  - rewrite Hget. auto.
  - cbn [TeamInfo.members TeamInfo.set_members]. split; [| split].
    + apply get_set_same.
    + intros k Hk. apply get_set_other. congruence.
    + discriminate.
Qed.

(** X7. In a well-formed roster, after [removeMember] the steamId is no
    member, every other steamId is looked up as before, and removing a
    steamId that is absent leaves the roster as it is; removing a steamId
    that [addMember] has just added gives back the roster from before. *)
Theorem removeMember_then_getMember (t : TeamInfo.t) (k : string) :
  wf t ->
  TeamInfo.isPlayerInTeam (TeamInfo.removeMember t k) k = false
  /\ (forall k', k' <> k ->
      TeamInfo.getMember (TeamInfo.removeMember t k) k'
      = TeamInfo.getMember t k')
  /\ (TeamInfo.isPlayerInTeam t k = false -> TeamInfo.removeMember t k = t)
  /\ (forall r, rp.steamId r = k ->
      TeamInfo.isPlayerInTeam t k = false ->
      TeamInfo.removeMember (TeamInfo.addMember t r) k = t).
Proof.
  intros [Hnd _].
  unfold TeamInfo.isPlayerInTeam, TeamInfo.removeMember, TeamInfo.getMember.
  cbn [TeamInfo.members TeamInfo.set_members].
  split; [| split; [| split]].
  - unfold JsMap.has. rewrite get_delete_same by exact Hnd. reflexivity.
  - intros k' Hk. apply get_delete_other. congruence.
  - intros H. rewrite (delete_absent _ _ H). apply set_members_same.
  - intros r <- H. unfold TeamInfo.addMember. rewrite H.
    cbn [TeamInfo.members TeamInfo.set_members].
    rewrite (set_fresh _ _ _ H), (delete_appended _ _ _ H).
    destruct t; reflexivity.
Qed.

Lemma removeMember_then_getMember_witness :
  wf Sample.with_a_and_b
  /\ TeamInfo.isPlayerInTeam (TeamInfo.removeMember Sample.with_a_and_b "A")
                             "A" = false.
Proof.
  assert (Hwf : wf Sample.with_a_and_b)
    by apply updateTeamInfo_wf, wf_constructor.
  split; [exact Hwf |].
  exact (proj1 (@removeMember_then_getMember Sample.with_a_and_b "A" Hwf)).
Defined.

Lemma filter_lengths {A} (p : A -> bool) l :
  (List.length (filter (fun a => negb (p a)) l)
   + List.length (filter p l))%nat = List.length l.
Proof.
  induction l as [| a l IH]; simpl; [reflexivity |].
  destruct (p a); simpl; lia.
Qed.

(** X8. For every roster and snapshot, [getLeftMembers] and
    [getReminingMembers] split the stored records: together they are as
    many as the members, a left record is not listed in the snapshot and a
    remaining one is, and every stored record is in one of the two lists.
    [getNewMembers] gives the records of the snapshot whose steamId is no
    member, in the order of the snapshot. *)
Theorem split_of_the_roster (t : TeamInfo.t) (info : rp.AppTeamInfo) :
  (List.length (TeamInfo.getLeftMembers t info)
   + List.length (TeamInfo.getReminingMembers t info))%nat
  = JsMap.size (TeamInfo.members t)
  /\ (forall r, In r (TeamInfo.getLeftMembers t info) ->
      TeamInfo.listed info (rp.steamId r) = false)
  /\ (forall r, In r (TeamInfo.getReminingMembers t info) ->
      TeamInfo.listed info (rp.steamId r) = true)
  /\ (forall k m, In (k, m) (TeamInfo.members t) ->
      In (Member.appTeamInfoMember m)
         (if TeamInfo.listed info (rp.steamId (Member.appTeamInfoMember m))
          then TeamInfo.getReminingMembers t info
          else TeamInfo.getLeftMembers t info))
  /\ (forall r, In r (TeamInfo.getNewMembers t info) <->
      In r (rp.members info)
      /\ TeamInfo.isPlayerInTeam t (rp.steamId r) = false).
Proof.
  unfold TeamInfo.getLeftMembers, TeamInfo.getReminingMembers,
    TeamInfo.getNewMembers.
  split; [| split; [| split; [| split]]].
  - rewrite !length_map.
    rewrite (filter_lengths
               (fun member =>
                  TeamInfo.listed info
                    (rp.steamId (Member.appTeamInfoMember member)))).
    unfold JsMap.values, JsMap.size. apply length_map.
  - intros r Hr. apply in_map_iff in Hr. destruct Hr as (m & <- & Hm).
    apply filter_In in Hm. apply negb_true_iff, Hm.
  - intros r Hr. apply in_map_iff in Hr. destruct Hr as (m & <- & Hm).
    apply filter_In in Hm. apply Hm.
  - intros k m Hin.
    assert (Hv : In m (JsMap.values (TeamInfo.members t))).
    { unfold JsMap.values. change m with (snd (k, m)). apply in_map, Hin. }
    destruct (TeamInfo.listed info
                (rp.steamId (Member.appTeamInfoMember m))) eqn:E;
      apply in_map, filter_In; split; auto.
    rewrite E. reflexivity.
  - intros r. rewrite filter_In, negb_true_iff. tauto.
Qed.

(** X9. Right after a snapshot has been ingested, and right after a roster
    has been constructed from it, [isLeaderSteamIdChanged] is false for
    that snapshot; in general it is true exactly when the stored leader
    differs from the leader of the snapshot. *)
Theorem leader_after_ingest (t : TeamInfo.t) (info info' : rp.AppTeamInfo)
  (c : Clock.t) (rpi : RustPlusInstance) :
  TeamInfo.isLeaderSteamIdChanged (fst (TeamInfo.updateTeamInfo t info c)) info
  = false
  /\ TeamInfo.isLeaderSteamIdChanged (TeamInfo.constructor rpi info) info
     = false
  /\ (TeamInfo.isLeaderSteamIdChanged
        (fst (TeamInfo.updateTeamInfo t info c)) info' = true
      <-> rp.leaderSteamId info <> rp.leaderSteamId info').
Proof.
  rewrite updateTeamInfo_eq. unfold TeamInfo.isLeaderSteamIdChanged.
  cbn [TeamInfo.appTeamInfo TeamInfo.constructor].
  rewrite String.eqb_refl. repeat split; try reflexivity.
  - rewrite negb_true_iff. apply String.eqb_neq.
  - rewrite negb_true_iff. apply String.eqb_neq.
Qed.

(** X10. After an ingest, [allOnline] holds exactly when every member is
    stored online and [allOffline] exactly when every member is stored
    offline; when the roster has a member, the two flags are not both
    true. *)
Theorem flags_after_ingest (t : TeamInfo.t) (info : rp.AppTeamInfo)
  (c : Clock.t) :
  let t' := fst (TeamInfo.updateTeamInfo t info c) in
  (TeamInfo.allOnline t' = true <->
   forall k m, In (k, m) (TeamInfo.members t') ->
               rp.isOnline (Member.appTeamInfoMember m) = true)
  /\ (TeamInfo.allOffline t' = true <->
      forall k m, In (k, m) (TeamInfo.members t') ->
                  rp.isOnline (Member.appTeamInfoMember m) = false)
  /\ (TeamInfo.members t' <> [] ->
      ~ (TeamInfo.allOnline t' = true /\ TeamInfo.allOffline t' = true)).
Proof.
  cbv zeta. rewrite updateTeamInfo_eq.
  cbn [TeamInfo.allOnline TeamInfo.allOffline TeamInfo.members].
  rewrite recomputeFlags_forallb. cbn [fst snd].
  set (ms := TeamInfo.members (afterLoops t info c)).
  assert (Hin : forall P : Member.t -> Prop,
            (forall m, In m (JsMap.values ms) -> P m)
            <-> (forall k m, In (k, m) ms -> P m)).
  { intros P. unfold JsMap.values. split.
    - intros H k m Hkm. apply H. change m with (snd (k, m)).
      apply in_map, Hkm.
    - intros H m Hm. apply in_map_iff in Hm.
      destruct Hm as ([k m0] & <- & He). apply (H k), He. }
  split; [| split].
  - rewrite forallb_forall. apply Hin.
  - rewrite forallb_forall.
    rewrite <- (Hin (fun m => rp.isOnline (Member.appTeamInfoMember m)
                              = false)).
    split; intros H m Hm; specialize (H m Hm).
    + apply negb_true_iff, H.
    + apply negb_true_iff, H.
  - intros Hne [Hon Hoff]. destruct ms as [| [k m] ms']; [congruence |].
    simpl in Hon, Hoff.
    destruct (rp.isOnline (Member.appTeamInfoMember m)); discriminate.
Qed.

(* ------------------------------------------------------------------ *)
(** ** Further properties of the roster: what every ingest keeps *)

Lemma add_loop_Forall (P : string * Member.t -> Prop) l : forall t,
  Forall P (TeamInfo.members t) ->
  (forall r, P (rp.steamId r, Member.constructor (TeamInfo.rpInstance t) r)) ->
  Forall P (TeamInfo.members (fold_left TeamInfo.addMember l t)).
Proof.
  induction l as [| a l IH]; intros t Ht Hnew; simpl; [exact Ht |].
  apply IH.
  - unfold TeamInfo.addMember.
    destruct (JsMap.has (rp.steamId a) (TeamInfo.members t)) eqn:Hhas;
      [exact Ht |].
    cbn [TeamInfo.members TeamInfo.set_members].
    rewrite (set_fresh _ _ _ Hhas). apply Forall_app. split; [exact Ht |].
    constructor; [apply Hnew | constructor].
  - rewrite addMember_rpInstance. exact Hnew.
Qed.

Lemma remove_loop_Forall (P : string * Member.t -> Prop) l : forall t,
  Forall P (TeamInfo.members t) ->
  Forall P (TeamInfo.members
              (fold_left (fun s member =>
                            TeamInfo.removeMember s (rp.steamId member))
                         l t)).
Proof.
  induction l as [| a l IH]; intros t Ht; simpl; [exact Ht |].
  apply IH. cbn [TeamInfo.members TeamInfo.removeMember TeamInfo.set_members].
  rewrite Forall_forall in *. intros e He. eapply Ht, in_delete, He.
Qed.

Lemma stepped_Forall P0 (Q : string * Member.t -> Prop) l l' :
  Forall2 (stepped P0) l l' ->
  (forall k m c, Q (k, m) -> Q (k, selfUpdate c m)) ->
  Forall Q l -> Forall Q l'.
Proof.
  intros Hs Hstep. induction Hs as [| [k m] [k' m'] l l' [Hf (c & _ & Hsnd)] _ IH];
    intros Hl; [constructor |].
  inversion Hl; subst. simpl in Hf, Hsnd. subst k' m'.
  constructor; [apply Hstep; assumption | auto].
Qed.

Lemma updateTeamInfo_rpInstance t info c :
  wf t ->
  TeamInfo.rpInstance (fst (TeamInfo.updateTeamInfo t info c))
  = TeamInfo.rpInstance t.
Proof.
  intros Hwf. rewrite updateTeamInfo_eq. cbn [TeamInfo.rpInstance].
  apply (afterLoops_stepped info c Hwf).
Qed.

Lemma updateTeamInfo_Forall (Q : string * Member.t -> Prop) t info c :
  wf t ->
  Forall Q (TeamInfo.members t) ->
  (forall r, Q (rp.steamId r, Member.constructor (TeamInfo.rpInstance t) r)) ->
  (forall k m c0, Q (k, m) -> Q (k, selfUpdate c0 m)) ->
  Forall Q (TeamInfo.members (fst (TeamInfo.updateTeamInfo t info c))).
Proof.
  intros Hwf Ht Hnew Hstep. rewrite updateTeamInfo_eq.
  cbn [TeamInfo.members].
  destruct (afterLoops_stepped info c Hwf) as [Hs _].
  apply (stepped_Forall Hs Hstep).
  unfold reconciled. cbv zeta.
  apply remove_loop_Forall, add_loop_Forall; assumption.
Qed.

(** X11. In every roster that the constructor, [addMember], [removeMember]
    and [updateTeamInfo] produce, no steamId is a key twice, every member
    is filed under the steamId of its record, carries the instance of the
    roster, and has [wasAfk] false. *)
Theorem invariant_of_built_rosters (t : TeamInfo.t) :
  built t ->
  NoDup (JsMap.keys (TeamInfo.members t))
  /\ forall k m, In (k, m) (TeamInfo.members t) ->
       rp.steamId (Member.appTeamInfoMember m) = k
       /\ Member.rpInstance m = TeamInfo.rpInstance t
       /\ Member.wasAfk m = false.
Proof.
  intros Hb.
  assert (H : wf t /\
              Forall (fun e => reachable (snd e)
                               /\ Member.rpInstance (snd e)
                                  = TeamInfo.rpInstance t)
                     (TeamInfo.members t)).
  { induction Hb as [rpi info | t r _ [Hwf Hm] | t k _ [Hwf Hm]
                     | t info c _ [Hwf Hm]].
    - split; [apply wf_constructor | constructor].
    - split; [apply addMember_wf, Hwf |].
      rewrite addMember_rpInstance.
      apply (@add_loop_Forall _ [r] t Hm).
      intros r0. split; [apply reachable_new | reflexivity].
    - split; [apply removeMember_wf, Hwf |].
      cbn [TeamInfo.members TeamInfo.removeMember TeamInfo.set_members
           TeamInfo.rpInstance].
      rewrite Forall_forall in *. intros e He. eapply Hm, in_delete, He.
    - split; [apply updateTeamInfo_wf, Hwf |].
      rewrite (updateTeamInfo_rpInstance info c Hwf).
      apply updateTeamInfo_Forall; auto.
      + intros r. split; [apply reachable_new | reflexivity].
      + intros k m c0 [Hr Hi]. cbn [snd] in *. split.
        * apply reachable_update, Hr.
        * unfold selfUpdate. rewrite update_rpInstance. exact Hi. }
  destruct H as [[Hnd Hk] Hm]. split; [exact Hnd |].
  intros k m Hin. rewrite Forall_forall in Hk, Hm.
  destruct (Hm _ Hin) as [Hr Hi]. cbn [snd] in *.
  split; [apply (Hk _ Hin) | split; [exact Hi |]].
  apply reachable_wasAfk, Hr.
Qed.

Lemma invariant_of_built_rosters_witness :
  built Sample.with_a_and_b
  /\ NoDup (JsMap.keys (TeamInfo.members Sample.with_a_and_b)).
Proof.
  assert (Hb : built Sample.with_a_and_b)
    by apply built_updateTeamInfo, built_constructor.
  split; [exact Hb |].
  exact (proj1 (@invariant_of_built_rosters Sample.with_a_and_b Hb)).
Defined.

(** X12. After a snapshot has been ingested into a well-formed roster, at
    any clock, the same snapshot has no new and no left members for the
    resulting roster, and [getReminingMembers] is the list of all stored
    records, in the order of the map. *)
Theorem no_joins_or_leaves_after_ingest (t : TeamInfo.t)
  (info : rp.AppTeamInfo) (c : Clock.t) :
  wf t ->
  let t' := fst (TeamInfo.updateTeamInfo t info c) in
  TeamInfo.getNewMembers t' info = []
  /\ TeamInfo.getLeftMembers t' info = []
  /\ TeamInfo.getReminingMembers t' info
     = map Member.appTeamInfoMember (JsMap.values (TeamInfo.members t')).
Proof.
  intros Hwf. cbv zeta.
  set (t1 := fst (TeamInfo.updateTeamInfo t info c)).
  assert (Hin : forall k, TeamInfo.isPlayerInTeam t1 k
                          = TeamInfo.listed info k)
    by (intros k; apply isPlayerInTeam_after, Hwf).
  pose proof (updateTeamInfo_wf info c Hwf) as [Hnd Hk]. fold t1 in Hnd, Hk.
  assert (Hl : forall m, In m (JsMap.values (TeamInfo.members t1)) ->
                 TeamInfo.listed info
                   (rp.steamId (Member.appTeamInfoMember m)) = true).
  { intros m Hm. unfold JsMap.values in Hm. apply in_map_iff in Hm.
    destruct Hm as ([k m0] & <- & He).
    rewrite Forall_forall in Hk. rewrite (Hk _ He). simpl.
    rewrite <- Hin. unfold TeamInfo.isPlayerInTeam, JsMap.has.
    rewrite (in_get _ _ _ Hnd He). reflexivity. }
  split; [| split].
  - apply filter_none. intros a Ha. rewrite Hin.
    apply negb_false_iff, listed_iff, in_map, Ha.
  - unfold TeamInfo.getLeftMembers. rewrite filter_none; [reflexivity |].
    intros m Hm. rewrite (Hl m Hm). reflexivity.
  - unfold TeamInfo.getReminingMembers. rewrite filter_all; [reflexivity |].
    exact Hl.
Qed.

Lemma no_joins_or_leaves_after_ingest_witness :
  wf Sample.with_a_online
  /\ TeamInfo.getNewMembers
       (fst (TeamInfo.updateTeamInfo Sample.with_a_online
               (Sample.snapshot [Sample.b_online]) Sample.ticking))
       (Sample.snapshot [Sample.b_online]) = [].
Proof.
  assert (Hwf : wf Sample.with_a_online)
    by apply updateTeamInfo_wf, wf_constructor.
  split; [exact Hwf |].
  exact (proj1 (@no_joins_or_leaves_after_ingest Sample.with_a_online
                  (Sample.snapshot [Sample.b_online]) Sample.ticking Hwf)).
Defined.

(** X13. After an ingest into a well-formed roster, the roster has as many
    members as the snapshot lists distinct steamIds. *)
Theorem size_after_ingest (t : TeamInfo.t) (info : rp.AppTeamInfo)
  (c : Clock.t) :
  wf t ->
  JsMap.size (TeamInfo.members (fst (TeamInfo.updateTeamInfo t info c)))
  = List.length (nodup string_dec (map rp.steamId (rp.members info))).
Proof.
  intros Hwf.
  pose proof (updateTeamInfo_wf info c Hwf) as [Hnd _].
  set (t1 := fst (TeamInfo.updateTeamInfo t info c)) in *.
  unfold JsMap.size.
  rewrite <- (length_map fst (TeamInfo.members t1)).
  apply Permutation_length.
  apply NoDup_Permutation;
    [exact Hnd | apply NoDup_nodup |].
  intros k. rewrite nodup_In, <- listed_iff.
  change (map fst (TeamInfo.members t1))
    with (JsMap.keys (TeamInfo.members t1)).
  rewrite <- has_keys.
  change (JsMap.has k (TeamInfo.members t1))
    with (TeamInfo.isPlayerInTeam t1 k).
  unfold t1. rewrite (isPlayerInTeam_after info c k Hwf). tauto.
Qed.

Lemma size_after_ingest_witness :
  wf Sample.with_a_online
  /\ JsMap.size
       (TeamInfo.members
          (fst (TeamInfo.updateTeamInfo Sample.with_a_online
                  (Sample.snapshot [Sample.b_online; Sample.b_online])
                  Sample.ticking)))
     = 1%nat.
Proof.
  assert (Hwf : wf Sample.with_a_online)
    by apply updateTeamInfo_wf, wf_constructor.
  split; [exact Hwf |].
  exact (@size_after_ingest Sample.with_a_online
           (Sample.snapshot [Sample.b_online; Sample.b_online])
           Sample.ticking Hwf).
Defined.

(** X14. A steamId that the first snapshot does not list and the second
    one lists, with coordinates that are numbers, is stored after the two
    ingests as a member freshly constructed from the first record that the
    second snapshot lists under it: whatever dates a member of that steamId
    had before it left are gone. *)
Theorem rejoining_member_is_fresh (t : TeamInfo.t)
  (info1 info2 : rp.AppTeamInfo) (c1 c2 : Clock.t) (k : string)
  (r : rp.AppTeamInfo_Member) :
  wf t ->
  TeamInfo.listed info1 k = false ->
  TeamInfo.findMember info2 k = Some r ->
  Js.isNaN (rp.x r) = false ->
  Js.isNaN (rp.y r) = false ->
  TeamInfo.getMember
    (fst (TeamInfo.updateTeamInfo
            (fst (TeamInfo.updateTeamInfo t info1 c1)) info2 c2)) k
  = Some (Member.constructor (TeamInfo.rpInstance t) r).
Proof.
  intros Hwf Hout Hin Hx Hy.
  set (t1 := fst (TeamInfo.updateTeamInfo t info1 c1)).
  assert (Hwf1 : wf t1) by apply updateTeamInfo_wf, Hwf.
  assert (Hno : TeamInfo.isPlayerInTeam t1 k = false)
    by (unfold t1; rewrite (isPlayerInTeam_after info1 c1 k Hwf); exact Hout).
  destruct (joined_record info2 c2 k Hwf1 Hno Hin) as (c0 & ->).
  unfold t1. rewrite (updateTeamInfo_rpInstance info1 c1 Hwf).
  rewrite selfUpdate_unchanged; auto.
Qed.

Lemma rejoining_member_is_fresh_witness :
  wf Sample.with_a_online
  /\ TeamInfo.getMember
       (fst (TeamInfo.updateTeamInfo
               (fst (TeamInfo.updateTeamInfo Sample.with_a_online
                       (Sample.snapshot [Sample.b_online]) Sample.ticking))
               (Sample.snapshot [Sample.a_offline]) Sample.ticking)) "A"
     = Some (Member.constructor Sample.instance Sample.a_offline).
Proof.
  assert (Hwf : wf Sample.with_a_online)
    by apply updateTeamInfo_wf, wf_constructor.
  split; [exact Hwf |].
  exact (@rejoining_member_is_fresh Sample.with_a_online
           (Sample.snapshot [Sample.b_online])
           (Sample.snapshot [Sample.a_offline])
           Sample.ticking Sample.ticking "A" Sample.a_offline
           Hwf eq_refl eq_refl eq_refl eq_refl).
Defined.

(* ------------------------------------------------------------------ *)
(** ** The member that has been alive for longest *)

Local Abbreviation alive now m :=
  (fst (Member.getAliveSeconds m (Clock.frozen now))).

Lemma getAliveSeconds_frozen m now :
  snd (Member.getAliveSeconds m (Clock.frozen now)) = Clock.frozen now.
Proof.
  unfold Member.getAliveSeconds.
  destruct (rp.spawnTime (Member.appTeamInfoMember m) =? 0); reflexivity.
Qed.

Lemma longerAlive_frozen a cur now :
  TeamInfo.longerAlive a (Some cur) (Clock.frozen now)
  = (if Js.gtQ (alive now a) (alive now cur) then Some a else Some cur,
     Clock.frozen now).
Proof.
  unfold TeamInfo.longerAlive, Clock.bind, Clock.ret. cbn [fst snd].
  rewrite !getAliveSeconds_frozen. reflexivity.
Qed.

Lemma longerAlive_choice a cur c :
  fst (TeamInfo.longerAlive a (Some cur) c) = Some a
  \/ fst (TeamInfo.longerAlive a (Some cur) c) = Some cur.
Proof.
  unfold TeamInfo.longerAlive, Clock.bind, Clock.ret. cbn [fst snd].
  destruct (Js.gtQ _ _); auto.
Qed.

Lemma longest_from_some l : forall cur c,
  exists m,
    fst (Clock.forEach TeamInfo.longerAlive l (Some cur) c) = Some m
    /\ In m (cur :: l).
Proof.
  induction l as [| a l IH]; intros cur c.
  - exists cur. simpl. auto.
  - rewrite forEach_cons.
    destruct (longerAlive_choice a cur c) as [-> | ->];
      match goal with
      | |- context [Clock.forEach _ l (Some ?x) ?c'] =>
          destruct (IH x c') as (m & Hm & Hin)
      end; exists m; (split; [exact Hm |]); simpl in *; tauto.
Qed.

Lemma gtQ_true a b : Js.gtQ a b = true -> (b < a)%Q.
Proof.
  unfold Js.gtQ. rewrite negb_true_iff. intros H.
  apply Qnot_le_lt. intros Hle. apply Qle_bool_iff in Hle. congruence.
Qed.

Lemma gtQ_false a b : Js.gtQ a b = false -> (a <= b)%Q.
Proof.
  unfold Js.gtQ. rewrite negb_false_iff. apply Qle_bool_iff.
Qed.

(** The loop keeps the first member among those alive for longest. *)
Lemma longest_first_maximum now l : forall pre0 cur post0,
  (forall p, In p pre0 -> (alive now p < alive now cur)%Q) ->
  (forall q, In q post0 -> (alive now q <= alive now cur)%Q) ->
  exists pre r post,
    fst (Clock.forEach TeamInfo.longerAlive l (Some cur) (Clock.frozen now))
    = Some r
    /\ pre0 ++ cur :: post0 ++ l = pre ++ r :: post
    /\ (forall p, In p pre -> (alive now p < alive now r)%Q)
    /\ (forall q, In q post -> (alive now q <= alive now r)%Q).
Proof.
  induction l as [| a l IH]; intros pre0 cur post0 Hpre Hpost.
  - exists pre0, cur, post0. rewrite app_nil_r. simpl. auto.
  - rewrite forEach_cons, longerAlive_frozen. cbn [fst snd].
    destruct (Js.gtQ (alive now a) (alive now cur)) eqn:E.
    + apply gtQ_true in E.
      destruct (IH (pre0 ++ cur :: post0) a []) as (pre & r & post & H).
      * intros p Hp. apply in_app_or in Hp. destruct Hp as [Hp | [<- | Hp]].
        -- eapply Qlt_trans; [apply Hpre, Hp | exact E].
        -- exact E.
        -- eapply Qle_lt_trans; [apply Hpost, Hp | exact E].
      * intros q [].
      * exists pre, r, post. simpl in H. rewrite <- app_assoc in H.
        simpl in H. exact H.
    + apply gtQ_false in E.
      destruct (IH pre0 cur (post0 ++ [a])) as (pre & r & post & H).
      * exact Hpre.
      * intros q Hq. apply in_app_or in Hq. destruct Hq as [Hq | [<- | []]].
        -- apply Hpost, Hq.
        -- exact E.
      * exists pre, r, post. rewrite <- app_assoc in H. simpl in H. exact H.
Qed.

Lemma longest_of_values now (ms : list Member.t) m :
  fst (Clock.forEach TeamInfo.longerAlive ms None (Clock.frozen now)) = Some m ->
  exists pre post,
    ms = pre ++ m :: post
    /\ (forall p, In p pre -> (alive now p < alive now m)%Q)
    /\ (forall q, In q post -> (alive now q <= alive now m)%Q).
Proof.
  destruct ms as [| a l]; [discriminate |].
  rewrite forEach_cons. cbn [TeamInfo.longerAlive Clock.ret fst snd].
  intros H.
  destruct (@longest_first_maximum now l [] a [])
    as (pre & r & post & Hr & Hl & Hpre & Hpost);
    [intros p [] | intros q [] |].
  rewrite Hr in H. injection H as ->.
  exists pre, post. simpl in Hl. auto.
Qed.

Lemma getLongestAliveMember_nonempty t c :
  TeamInfo.members t <> [] ->
  TeamInfo.getLongestAliveMember t c
  = Clock.forEach TeamInfo.longerAlive (JsMap.values (TeamInfo.members t))
                  None c.
Proof.
  unfold TeamInfo.getLongestAliveMember, JsMap.size.
  destruct (TeamInfo.members t); [congruence | reflexivity].
Qed.

(** X15. At any clock, [getLongestAliveMember] returns null exactly when
    the roster has no member, and otherwise one of the members of the
    roster. *)
Theorem longest_alive_is_a_member (t : TeamInfo.t) (c : Clock.t) :
  (fst (TeamInfo.getLongestAliveMember t c) = None
   <-> TeamInfo.members t = [])
  /\ (forall m, fst (TeamInfo.getLongestAliveMember t c) = Some m ->
      In m (JsMap.values (TeamInfo.members t))).
Proof.
  unfold TeamInfo.getLongestAliveMember, JsMap.size, JsMap.values.
  destruct (TeamInfo.members t) as [| [k a] l].
  - simpl. split; [tauto | discriminate].
  - cbn [List.length Nat.eqb map snd]. rewrite forEach_cons.
    cbn [TeamInfo.longerAlive Clock.ret fst snd].
    destruct (longest_from_some (map snd l) a c) as (m & Hm & Hin).
    rewrite Hm. split.
    + split; discriminate.
    + intros m0 [= <-]. exact Hin.
Qed.

(** X16. When the clock reads the same at every call,
    [getLongestAliveMember] returns the first member, in the order of the
    map, among those whose [getAliveSeconds] is greatest: every member
    before it has been alive for strictly less, every member after it for
    at most as long. *)
Theorem longest_alive_is_first_maximum (t : TeamInfo.t) (now : Z)
  (m : Member.t) :
  fst (TeamInfo.getLongestAliveMember t (Clock.frozen now)) = Some m ->
  exists pre post,
    JsMap.values (TeamInfo.members t) = pre ++ m :: post
    /\ (forall p, In p pre ->
        (fst (Member.getAliveSeconds p (Clock.frozen now))
         < fst (Member.getAliveSeconds m (Clock.frozen now)))%Q)
    /\ (forall q, In q post ->
        (fst (Member.getAliveSeconds q (Clock.frozen now))
         <= fst (Member.getAliveSeconds m (Clock.frozen now)))%Q).
Proof.
  intros H. apply longest_of_values.
  rewrite <- getLongestAliveMember_nonempty; [exact H |].
  intros He. unfold TeamInfo.getLongestAliveMember in H.
  rewrite He in H. discriminate H.
Qed.

Lemma longest_alive_is_first_maximum_witness :
  fst (TeamInfo.getLongestAliveMember Sample.with_a_and_b
                                      (Clock.frozen 5000000))
  = Some (Member.constructor Sample.instance Sample.b_online)
  /\ exists pre post,
       JsMap.values (TeamInfo.members Sample.with_a_and_b)
       = pre ++ Member.constructor Sample.instance Sample.b_online :: post
       /\ (forall p, In p pre ->
           (fst (Member.getAliveSeconds p (Clock.frozen 5000000))
            < fst (Member.getAliveSeconds
                     (Member.constructor Sample.instance Sample.b_online)
                     (Clock.frozen 5000000)))%Q)
       /\ (forall q, In q post ->
           (fst (Member.getAliveSeconds q (Clock.frozen 5000000))
            <= fst (Member.getAliveSeconds
                      (Member.constructor Sample.instance Sample.b_online)
                      (Clock.frozen 5000000)))%Q).
Proof.
  split; [reflexivity |].
  exact (@longest_alive_is_first_maximum Sample.with_a_and_b 5000000
           (Member.constructor Sample.instance Sample.b_online) eq_refl).
Defined.

Lemma alive_le_spawn now p m :
  rp.spawnTime (Member.appTeamInfoMember p) <> 0 ->
  rp.spawnTime (Member.appTeamInfoMember m) <> 0 ->
  (alive now p <= alive now m)%Q ->
  rp.spawnTime (Member.appTeamInfoMember m)
  <= rp.spawnTime (Member.appTeamInfoMember p).
Proof.
  intros Hp Hm. unfold Member.getAliveSeconds.
  apply Z.eqb_neq in Hp, Hm. rewrite Hp, Hm.
  unfold Clock.bind, Clock.ret, Clock.newDate, Clock.frozen. cbn [fst snd].
  unfold Qle, Qdiv. simpl. lia.
Qed.

(** X17. When every member has a spawn time other than 0 and the clock
    reads the same at every call, the member that [getLongestAliveMember]
    returns has the earliest spawn time of the roster. *)
Theorem longest_alive_spawned_first (t : TeamInfo.t) (now : Z)
  (m : Member.t) :
  (forall p, In p (JsMap.values (TeamInfo.members t)) ->
             rp.spawnTime (Member.appTeamInfoMember p) <> 0) ->
  fst (TeamInfo.getLongestAliveMember t (Clock.frozen now)) = Some m ->
  forall p, In p (JsMap.values (TeamInfo.members t)) ->
            rp.spawnTime (Member.appTeamInfoMember m)
            <= rp.spawnTime (Member.appTeamInfoMember p).
Proof.
  intros Hsp H p Hp.
  assert (Hne : TeamInfo.members t <> []).
  { intros He. unfold TeamInfo.getLongestAliveMember in H.
    rewrite He in H. discriminate H. }
  rewrite getLongestAliveMember_nonempty in H by exact Hne.
  destruct (longest_of_values _ _ H) as (pre & post & Hl & Hpre & Hpost).
  assert (Hm : In m (JsMap.values (TeamInfo.members t)))
    by (rewrite Hl; apply in_or_app; right; left; reflexivity).
  rewrite Hl in Hp. apply in_app_or in Hp.
  destruct Hp as [Hp | [<- | Hp]].
  - apply (@alive_le_spawn now); [apply Hsp; rewrite Hl; apply in_or_app; auto
                                 | apply Hsp, Hm |].
    apply Qlt_le_weak, Hpre, Hp.
  - lia.
  - apply (@alive_le_spawn now);
      [apply Hsp; rewrite Hl; apply in_or_app; right; right; exact Hp
      | apply Hsp, Hm |].
    apply Hpost, Hp.
Qed.

Lemma longest_alive_spawned_first_witness :
  (forall p, In p (JsMap.values (TeamInfo.members Sample.with_a_and_b)) ->
             rp.spawnTime (Member.appTeamInfoMember p) <> 0)
  /\ fst (TeamInfo.getLongestAliveMember Sample.with_a_and_b
                                         (Clock.frozen 5000000))
     = Some (Member.constructor Sample.instance Sample.b_online)
  /\ forall p, In p (JsMap.values (TeamInfo.members Sample.with_a_and_b)) ->
               rp.spawnTime Sample.b_online
               <= rp.spawnTime (Member.appTeamInfoMember p).
Proof.
  assert (Hsp : forall p,
            In p (JsMap.values (TeamInfo.members Sample.with_a_and_b)) ->
            rp.spawnTime (Member.appTeamInfoMember p) <> 0).
  { intros p [<- | [<- | []]]; discriminate. }
  split; [exact Hsp | split; [reflexivity |]].
  exact (@longest_alive_spawned_first Sample.with_a_and_b 5000000
           (Member.constructor Sample.instance Sample.b_online)
           Hsp eq_refl).
Defined.

(* ------------------------------------------------------------------ *)
(** ** The credentials of a discord user *)

Section CredentialsFacts.
Variable Gcm : Type.
Variable entries : CredentialsManager.CredentialsMap Gcm.

(** The steamIds of the entries whose credentials are of [user]. *)
Local Abbreviation steamIdsOf user es :=
  (map fst
     (filter (fun e : string * CredentialsManager.Credentials Gcm =>
                String.eqb (CredentialsManager.discordUserId (snd e)) user)
             es)).

Lemma steamIdsOf_cons user k (cred : CredentialsManager.Credentials Gcm) es :
  steamIdsOf user ((k, cred) :: es)
  = if String.eqb (CredentialsManager.discordUserId cred) user
    then k :: steamIdsOf user es
    else steamIdsOf user es.
Proof.
  simpl. destruct (String.eqb _ user); reflexivity.
Qed.

(** One turn of the loop, for a steamId that is a key of the map and an
    object that has no own property "__proto__". *)
Lemma addSteamId_found (acc : CredentialsManager.DiscordUserIdToSteamIdsMap)
  k cred :
  JsMap.get k entries = Some cred ->
  JsMap.get CredentialsManager.protoKey (CredentialsManager.own acc) = None ->
  CredentialsManager.addSteamId (Some entries)
    (CredentialsManager.Returns acc) k
  = CredentialsManager.Returns
      (if String.eqb (CredentialsManager.discordUserId cred)
                     CredentialsManager.protoKey
       then {| CredentialsManager.own := CredentialsManager.own acc;
               CredentialsManager.prototype := Some [k] |}
       else {| CredentialsManager.own :=
                 JsMap.set (CredentialsManager.discordUserId cred)
                   ((match JsMap.get (CredentialsManager.discordUserId cred)
                                     (CredentialsManager.own acc) with
                     | Some l => l | None => [] end) ++ [k])
                   (CredentialsManager.own acc);
               CredentialsManager.prototype :=
                 CredentialsManager.prototype acc |}).
Proof.
  intros H Hproto.
  unfold CredentialsManager.addSteamId,
    CredentialsManager.getCredentialsDeepCopy, CredentialsManager.hasOwn,
    CredentialsManager.push, CredentialsManager.assign, JsMap.has.
  rewrite H. cbn [CredentialsManager.discordUserIdOf].
  destruct (String.eqb_spec (CredentialsManager.discordUserId cred)
                            CredentialsManager.protoKey) as [-> | Hne].
  - rewrite Hproto. reflexivity.
  - destruct (JsMap.get (CredentialsManager.discordUserId cred)
                        (CredentialsManager.own acc)); reflexivity.
Qed.

(** The loop of [getDiscordUserIdToSteamIdsMap] over a part of the
    entries, from an object whose lists are not empty and that has no own
    property "__proto__". *)
Lemma addSteamId_loop : forall es acc,
  (forall e, In e es -> JsMap.get (fst e) entries = Some (snd e)) ->
  (forall user, JsMap.get user (CredentialsManager.own acc) <> Some []) ->
  JsMap.get CredentialsManager.protoKey (CredentialsManager.own acc) = None ->
  exists map,
    fold_left (CredentialsManager.addSteamId (Some entries))
              (JsMap.keys es) (CredentialsManager.Returns acc)
    = CredentialsManager.Returns map
    /\ (forall user,
          user <> CredentialsManager.protoKey ->
          JsMap.get user (CredentialsManager.own map)
          = match (match JsMap.get user (CredentialsManager.own acc) with
                   | Some l => l | None => [] end)
                  ++ steamIdsOf user es with
            | [] => None
            | l => Some l
            end)
    /\ JsMap.get CredentialsManager.protoKey (CredentialsManager.own map)
       = None
    /\ CredentialsManager.prototype map
       = match steamIdsOf CredentialsManager.protoKey es with
         | [] => CredentialsManager.prototype acc
         | l => Some [last l ""%string]
         end.
Proof.
  induction es as [| [k cred] es IH]; intros acc Hget Hne Hproto.
  - exists acc. split; [reflexivity |]. split; [| split; auto].
    intros user _. simpl. rewrite app_nil_r. specialize (Hne user).
    destruct (JsMap.get user (CredentialsManager.own acc)) as [[| a l] |];
      congruence.
  - change (JsMap.keys ((k, cred) :: es)) with (k :: JsMap.keys es).
    cbn [fold_left].
    rewrite (@addSteamId_found acc k cred
               (Hget (k, cred) (or_introl eq_refl)) Hproto).
    set (user0 := CredentialsManager.discordUserId cred).
    destruct (String.eqb_spec user0 CredentialsManager.protoKey)
      as [Hp | Hp].
    + destruct (IH {| CredentialsManager.own := CredentialsManager.own acc;
                      CredentialsManager.prototype := Some [k] |})
        as (map & Hmap & Hlook & Hnone & Hprot).
      * intros e He. apply Hget. right. exact He.
      * exact Hne.
      * exact Hproto.
      * exists map. split; [exact Hmap |]. split; [| split].
        -- intros user Hu. rewrite (Hlook user Hu), steamIdsOf_cons.
           fold user0. rewrite Hp.
           destruct (String.eqb_spec CredentialsManager.protoKey user);
             [congruence | reflexivity].
        -- exact Hnone.
        -- rewrite Hprot, steamIdsOf_cons. fold user0. rewrite Hp.
           rewrite String.eqb_refl. cbn [CredentialsManager.prototype].
           destruct (steamIdsOf CredentialsManager.protoKey es);
             reflexivity.
    + set (acc' := {| CredentialsManager.own :=
                        JsMap.set user0
                          ((match JsMap.get user0 (CredentialsManager.own acc)
                            with Some l => l | None => [] end) ++ [k])
                          (CredentialsManager.own acc);
                      CredentialsManager.prototype :=
                        CredentialsManager.prototype acc |}).
      destruct (IH acc') as (map & Hmap & Hlook & Hnone & Hprot).
      * intros e He. apply Hget. right. exact He.
      * intros user. subst acc'. cbn [CredentialsManager.own].
        destruct (String.eqb_spec user0 user) as [<- | Hd].
        -- rewrite get_set_same. intros [= H].
           apply app_eq_nil in H. destruct H as [_ H]. discriminate H.
        -- rewrite get_set_other by exact Hd. apply Hne.
      * subst acc'. cbn [CredentialsManager.own].
        rewrite get_set_other by exact Hp. exact Hproto.
      * exists map. split; [exact Hmap |]. split; [| split].
        -- intros user Hu. rewrite (Hlook user Hu), steamIdsOf_cons.
           fold user0. subst acc'. cbn [CredentialsManager.own].
           destruct (String.eqb_spec user0 user) as [<- | Hd].
           ++ rewrite get_set_same, <- app_assoc. reflexivity.
           ++ rewrite get_set_other by exact Hd. reflexivity.
        -- exact Hnone.
        -- rewrite Hprot, steamIdsOf_cons. fold user0.
           destruct (String.eqb_spec user0 CredentialsManager.protoKey);
             [congruence | reflexivity].
Qed.

Lemma entries_are_looked_up :
  NoDup (JsMap.keys entries) ->
  forall e, In e entries -> JsMap.get (fst e) entries = Some (snd e).
Proof.
  intros Hnd [k cred] He. apply in_get; assumption.
Qed.

(** What [getDiscordUserIdToSteamIdsMap] returns when the field holds an
    object with these entries. *)
Lemma getDiscordUserIdToSteamIdsMap_returns :
  NoDup (JsMap.keys entries) ->
  exists map,
    CredentialsManager.getDiscordUserIdToSteamIdsMap (Some entries)
    = CredentialsManager.Returns map
    /\ (forall user,
          user <> CredentialsManager.protoKey ->
          JsMap.get user (CredentialsManager.own map)
          = match steamIdsOf user entries with
            | [] => None
            | l => Some l
            end)
    /\ JsMap.get CredentialsManager.protoKey (CredentialsManager.own map)
       = None
    /\ CredentialsManager.prototype map
       = match steamIdsOf CredentialsManager.protoKey entries with
         | [] => None
         | l => Some [last l ""%string]
         end.
Proof.
  intros Hnd.
  destruct (@addSteamId_loop entries CredentialsManager.emptyObject
              (entries_are_looked_up Hnd))
    as (map & Hmap & Hlook & Hnone & Hprot);
    [discriminate | reflexivity |].
  exists map. split; [exact Hmap |]. split; [| split; assumption].
  intros user Hu. rewrite (Hlook user Hu). reflexivity.
Qed.

(** X18. When the field [credentialsMap] holds an object, whose keys are
    distinct, [getDiscordUserIdToSteamIdsMap] returns an object that has,
    for every discord user id other than "__proto__", the own property that
    holds exactly the list that [getCredentialSteamIdsFromDiscordUserId]
    returns for that id, in the same order, and no own property when that
    list is empty. It has no own property "__proto__": the credentials of
    such a user are not listed, and the prototype of the object is the
    one-element array of the last of their steamIds. *)
Theorem steamIds_by_user_agree :
  NoDup (JsMap.keys entries) ->
  exists map,
    CredentialsManager.getDiscordUserIdToSteamIdsMap (Some entries)
    = CredentialsManager.Returns map
    /\ (forall user,
          user <> CredentialsManager.protoKey ->
          match JsMap.get user (CredentialsManager.own map) with
          | Some steamIds =>
              CredentialsManager.getCredentialSteamIdsFromDiscordUserId
                (Some entries) user
              = CredentialsManager.Returns steamIds
              /\ steamIds <> []
          | None =>
              CredentialsManager.getCredentialSteamIdsFromDiscordUserId
                (Some entries) user
              = CredentialsManager.Returns []
          end)
    /\ CredentialsManager.hasOwn map CredentialsManager.protoKey = false
    /\ forall steamIds,
         CredentialsManager.getCredentialSteamIdsFromDiscordUserId
           (Some entries) CredentialsManager.protoKey
         = CredentialsManager.Returns steamIds ->
         CredentialsManager.prototype map
         = match steamIds with
           | [] => None
           | l => Some [last l ""%string]
           end.
Proof.
  intros Hnd.
  destruct (getDiscordUserIdToSteamIdsMap_returns Hnd)
    as (map & Hmap & Hlook & Hnone & Hprot).
  exists map. split; [exact Hmap |]. split; [| split].
  - intros user Hu. rewrite (Hlook user Hu).
    unfold CredentialsManager.getCredentialSteamIdsFromDiscordUserId.
    destruct (steamIdsOf user entries); [reflexivity |].
    split; [reflexivity | discriminate].
  - unfold CredentialsManager.hasOwn, JsMap.has. rewrite Hnone. reflexivity.
  - intros steamIds [= <-]. rewrite Hprot.
    destruct (steamIdsOf CredentialsManager.protoKey entries); reflexivity.
Qed.

(** X19. When the field [credentialsMap] holds an object, whose keys are
    distinct, a steamId is in the list that the object returned by
    [getDiscordUserIdToSteamIdsMap] holds as own property of a discord user
    id other than "__proto__" exactly when [getCredentialsDeepCopy] of that
    steamId returns credentials of that user. *)
Theorem steamId_is_under_its_user :
  NoDup (JsMap.keys entries) ->
  forall map user steamIds k,
    CredentialsManager.getDiscordUserIdToSteamIdsMap (Some entries)
    = CredentialsManager.Returns map ->
    user <> CredentialsManager.protoKey ->
    JsMap.get user (CredentialsManager.own map) = Some steamIds ->
    (In k steamIds <->
     exists cred,
       CredentialsManager.getCredentialsDeepCopy (Some entries) k
       = CredentialsManager.Returns (Some (CredentialsManager.Cloned cred))
       /\ CredentialsManager.discordUserId cred = user).
Proof.
  intros Hnd map user steamIds k Hmap Hu Hget.
  destruct (getDiscordUserIdToSteamIdsMap_returns Hnd)
    as (map' & Hmap' & Hlook & _).
  assert (E : CredentialsManager.Returns map = CredentialsManager.Returns map')
    by (rewrite <- Hmap; exact Hmap').
  injection E as ->.
  rewrite (Hlook user Hu) in Hget.
  assert (Hids : steamIds = steamIdsOf user entries).
  { destruct (steamIdsOf user entries); congruence. }
  rewrite Hids. unfold CredentialsManager.getCredentialsDeepCopy.
  rewrite in_map_iff. split.
  - intros ([k0 cred] & Hk & Hin). simpl in Hk. subst k0.
    apply filter_In in Hin. destruct Hin as [Hin Hc]. simpl in Hc.
    exists cred. split; [rewrite (in_get _ _ _ Hnd Hin); reflexivity |].
    apply String.eqb_eq, Hc.
  - intros (cred & Hc & Hc'). exists (k, cred). split; [reflexivity |].
    apply filter_In. split; [| simpl; apply String.eqb_eq, Hc'].
    apply get_in.
    destruct (JsMap.get k entries) as [cred0 |]; [congruence |].
    destruct (String.eqb k CredentialsManager.protoKey); [discriminate |].
    destruct (existsb _ _); discriminate.
Qed.

End CredentialsFacts.

Lemma steamIds_by_user_agree_witness :
  NoDup (JsMap.keys Sample.credentialsMapProto)
  /\ exists map,
       CredentialsManager.getDiscordUserIdToSteamIdsMap
         (Some Sample.credentialsMapProto)
       = CredentialsManager.Returns map
       /\ (forall user,
             user <> CredentialsManager.protoKey ->
             match JsMap.get user (CredentialsManager.own map) with
             | Some steamIds =>
                 CredentialsManager.getCredentialSteamIdsFromDiscordUserId
                   (Some Sample.credentialsMapProto) user
                 = CredentialsManager.Returns steamIds
                 /\ steamIds <> []
             | None =>
                 CredentialsManager.getCredentialSteamIdsFromDiscordUserId
                   (Some Sample.credentialsMapProto) user
                 = CredentialsManager.Returns []
             end)
       /\ CredentialsManager.hasOwn map CredentialsManager.protoKey = false
       /\ forall steamIds,
            CredentialsManager.getCredentialSteamIdsFromDiscordUserId
              (Some Sample.credentialsMapProto) CredentialsManager.protoKey
            = CredentialsManager.Returns steamIds ->
            CredentialsManager.prototype map
            = match steamIds with
              | [] => None
              | l => Some [last l ""%string]
              end.
Proof.
  assert (Hnd : NoDup (JsMap.keys Sample.credentialsMapProto)).
  { simpl. repeat constructor; simpl; intuition discriminate. }
  split; [exact Hnd |].
  exact (@steamIds_by_user_agree unit Sample.credentialsMapProto Hnd).
Defined.

Lemma steamId_is_under_its_user_witness :
  NoDup (JsMap.keys Sample.credentialsMap)
  /\ (In "3"%string ["1"%string; "3"%string] <->
      exists cred,
        CredentialsManager.getCredentialsDeepCopy
          (Some Sample.credentialsMap) "3"
        = CredentialsManager.Returns (Some (CredentialsManager.Cloned cred))
        /\ CredentialsManager.discordUserId cred = "u"%string).
Proof.
  assert (Hnd : NoDup (JsMap.keys Sample.credentialsMap)).
  { simpl. repeat constructor; simpl; intuition discriminate. }
  split; [exact Hnd |].
  refine (@steamId_is_under_its_user unit Sample.credentialsMap Hnd
            {| CredentialsManager.own :=
                 [("u"%string, ["1"%string; "3"%string]);
                  ("v"%string, ["2"%string])];
               CredentialsManager.prototype := None |}
            "u"%string ["1"%string; "3"%string] "3"%string
            eq_refl _ eq_refl).
  discriminate.
Defined.

(* ------------------------------------------------------------------ *)
(** ** The order of the members after an ingest *)

Lemma keys_app {V} (m1 m2 : JsMap.t V) :
  JsMap.keys (m1 ++ m2) = JsMap.keys m1 ++ JsMap.keys m2.
Proof. apply map_app. Qed.

Lemma add_loop_keys l : forall t,
  NoDup (map rp.steamId l) ->
  (forall r, In r l -> JsMap.has (rp.steamId r) (TeamInfo.members t) = false) ->
  JsMap.keys (TeamInfo.members (fold_left TeamInfo.addMember l t))
  = JsMap.keys (TeamInfo.members t) ++ map rp.steamId l.
Proof.
  induction l as [| a l IH]; intros t Hnd Hnew; simpl.
  - rewrite app_nil_r. reflexivity.
  - inversion Hnd as [| ? ? Ha Hnd']; subst.
    assert (Hhas : JsMap.has (rp.steamId a) (TeamInfo.members t) = false)
      by (apply Hnew; left; reflexivity).
    assert (Hadd : TeamInfo.members (TeamInfo.addMember t a)
                   = TeamInfo.members t
                     ++ [(rp.steamId a,
                          Member.constructor (TeamInfo.rpInstance t) a)]).
    { unfold TeamInfo.addMember. rewrite Hhas.
      cbn [TeamInfo.members TeamInfo.set_members].
      apply set_fresh, Hhas. }
    rewrite IH; [| exact Hnd' |].
    + rewrite Hadd, keys_app, <- app_assoc. reflexivity.
    + intros r Hr. rewrite Hadd. apply not_true_is_false. intros Hc.
      apply has_keys in Hc. rewrite keys_app in Hc.
      apply in_app_or in Hc. destruct Hc as [Hc | [Hc | []]].
      * apply has_keys in Hc. rewrite (Hnew r) in Hc by (right; exact Hr).
        discriminate.
      * apply Ha. simpl in Hc. rewrite Hc. apply in_map, Hr.
Qed.

Lemma keys_delete {V} k (m : JsMap.t V) :
  NoDup (JsMap.keys m) ->
  JsMap.keys (JsMap.delete k m)
  = filter (fun k' => negb (String.eqb k k')) (JsMap.keys m).
Proof.
  induction m as [| [k0 v0] m IH]; simpl; intros Hnd; [reflexivity |].
  inversion Hnd as [| ? ? Hk Hnd']; subst.
  destruct (String.eqb_spec k k0) as [<- | Hne]; simpl.
  - symmetry. apply filter_all. intros k' Hk'.
    apply negb_true_iff, String.eqb_neq. intros <-. exact (Hk Hk').
  - rewrite IH by exact Hnd'. reflexivity.
Qed.

Lemma filter_filter {A} (p q : A -> bool) l :
  filter p (filter q l) = filter (fun a => q a && p a) l.
Proof.
  induction l as [| a l IH]; simpl; [reflexivity |].
  destruct (q a); simpl; [destruct (p a) |]; rewrite IH; reflexivity.
Qed.

Lemma remove_loop_keys l : forall t,
  wf t ->
  JsMap.keys
    (TeamInfo.members
       (fold_left (fun s member => TeamInfo.removeMember s (rp.steamId member))
                  l t))
  = filter (fun k => negb (existsb (fun m => String.eqb (rp.steamId m) k) l))
           (JsMap.keys (TeamInfo.members t)).
Proof.
  induction l as [| a l IH]; intros t Hwf; simpl.
  - symmetry. apply filter_all. reflexivity.
  - rewrite IH by (apply removeMember_wf, Hwf).
    cbn [TeamInfo.members TeamInfo.removeMember TeamInfo.set_members].
    rewrite keys_delete by apply Hwf. rewrite filter_filter.
    apply filter_ext. intros k.
    destruct (String.eqb (rp.steamId a) k); reflexivity.
Qed.

Lemma NoDup_map_filter {A B} (f : A -> B) (p : A -> bool) l :
  NoDup (map f l) -> NoDup (map f (filter p l)).
Proof.
  induction l as [| a l IH]; simpl; intros H; [constructor |].
  inversion H as [| ? ? Ha Hnd]; subst.
  destruct (p a); simpl; [| auto].
  constructor; [| auto].
  intros Hc. apply Ha. apply in_map_iff in Hc.
  destruct Hc as (b & Hb & Hin). apply filter_In in Hin.
  rewrite <- Hb. apply in_map, Hin.
Qed.

(** X20. When the steamIds of the snapshot are pairwise distinct, the map
    of a well-formed roster holds after the ingest, in its iteration order,
    first the members that stay, in the order they had, and then the new
    members, in the order of the snapshot. *)
Theorem order_after_ingest (t : TeamInfo.t) (info : rp.AppTeamInfo)
  (c : Clock.t) :
  wf t ->
  NoDup (map rp.steamId (rp.members info)) ->
  JsMap.keys (TeamInfo.members (fst (TeamInfo.updateTeamInfo t info c)))
  = filter (TeamInfo.listed info) (JsMap.keys (TeamInfo.members t))
    ++ map rp.steamId (TeamInfo.getNewMembers t info).
Proof.
  intros Hwf Hnd. rewrite updateTeamInfo_eq. cbn [TeamInfo.members].
  destruct (afterLoops_stepped info c Hwf) as [Hs _].
  rewrite (stepped_keys Hs). unfold reconciled. cbv zeta.
  set (t1 := fold_left TeamInfo.addMember (TeamInfo.getNewMembers t info) t).
  assert (Hwf1 : wf t1) by apply add_loop_wf, Hwf.
  assert (Hk1 : JsMap.keys (TeamInfo.members t1)
                = JsMap.keys (TeamInfo.members t)
                  ++ map rp.steamId (TeamInfo.getNewMembers t info)).
  { apply add_loop_keys.
    - apply NoDup_map_filter, Hnd.
    - intros r Hr. apply filter_In in Hr. destruct Hr as [_ Hr].
      apply negb_true_iff, Hr. }
  rewrite remove_loop_keys by exact Hwf1.
  assert (Hf : filter
                 (fun k => negb (existsb
                                   (fun m => String.eqb (rp.steamId m) k)
                                   (TeamInfo.getLeftMembers t1 info)))
                 (JsMap.keys (TeamInfo.members t1))
               = filter (TeamInfo.listed info)
                        (JsMap.keys (TeamInfo.members t1))).
  { apply filter_ext_in. intros k Hk.
    pose proof (left_get info k Hwf1) as Hl.
    rewrite remove_loop_get in Hl by exact Hwf1.
    apply has_keys in Hk. unfold JsMap.has in Hk.
    destruct (JsMap.get k (TeamInfo.members t1)); [| discriminate].
    destruct (existsb _ _), (TeamInfo.listed info k);
      try reflexivity; discriminate. }
  rewrite Hf, Hk1, filter_app. f_equal.
  apply filter_all. intros k Hk. apply in_map_iff in Hk.
  destruct Hk as (r & <- & Hr). apply filter_In in Hr.
  apply listed_iff, in_map, Hr.
Qed.

Lemma order_after_ingest_witness :
  wf Sample.with_a_online
  /\ NoDup (map rp.steamId
                (rp.members
                   (Sample.snapshot [Sample.b_online; Sample.a_offline])))
  /\ JsMap.keys
       (TeamInfo.members
          (fst (TeamInfo.updateTeamInfo Sample.with_a_online
                  (Sample.snapshot [Sample.b_online; Sample.a_offline])
                  Sample.ticking)))
     = ["A"%string; "B"%string].
Proof.
  assert (Hwf : wf Sample.with_a_online)
    by apply updateTeamInfo_wf, wf_constructor.
  assert (Hnd : NoDup (map rp.steamId
                         (rp.members
                            (Sample.snapshot
                               [Sample.b_online; Sample.a_offline])))).
  { simpl. repeat constructor; simpl; intuition discriminate. }
  split; [exact Hwf | split; [exact Hnd |]].
  exact (@order_after_ingest Sample.with_a_online
           (Sample.snapshot [Sample.b_online; Sample.a_offline])
           Sample.ticking Hwf Hnd).
Defined.

(* ------------------------------------------------------------------ *)
(** ** The first ingest, and the ingest of an empty snapshot *)

Lemma add_loop_members l : forall t,
  NoDup (map rp.steamId l) ->
  (forall r, In r l -> JsMap.has (rp.steamId r) (TeamInfo.members t) = false) ->
  TeamInfo.members (fold_left TeamInfo.addMember l t)
  = TeamInfo.members t
    ++ map (fun r => (rp.steamId r,
                      Member.constructor (TeamInfo.rpInstance t) r)) l.
Proof.
  induction l as [| a l IH]; intros t Hnd Hnew; simpl.
  - rewrite app_nil_r. reflexivity.
  - inversion Hnd as [| ? ? Ha Hnd']; subst.
    assert (Hhas : JsMap.has (rp.steamId a) (TeamInfo.members t) = false)
      by (apply Hnew; left; reflexivity).
    assert (Hadd : TeamInfo.members (TeamInfo.addMember t a)
                   = TeamInfo.members t
                     ++ [(rp.steamId a,
                          Member.constructor (TeamInfo.rpInstance t) a)]).
    { unfold TeamInfo.addMember. rewrite Hhas.
      cbn [TeamInfo.members TeamInfo.set_members].
      apply set_fresh, Hhas. }
    rewrite IH; [| exact Hnd' |].
    + rewrite Hadd, addMember_rpInstance, <- app_assoc. reflexivity.
    + intros r Hr. rewrite Hadd. apply not_true_is_false. intros Hc.
      apply has_keys in Hc. rewrite keys_app in Hc.
      apply in_app_or in Hc. destruct Hc as [Hc | [Hc | []]].
      * apply has_keys in Hc. rewrite (Hnew r) in Hc by (right; exact Hr).
        discriminate.
      * apply Ha. simpl in Hc. rewrite Hc. apply in_map, Hr.
Qed.

Lemma stepped_unchanged P l l' :
  Forall2 (stepped P) l l' ->
  Forall (fun e => forall c, selfUpdate c (snd e) = snd e) l ->
  l' = l.
Proof.
  induction 1 as [| [k m] [k' m'] l l' [Hf (c & _ & Hs)] _ IH]; intros Hl;
    [reflexivity |].
  inversion Hl as [| ? ? He Hl']; subst. simpl in *.
  rewrite Hf, Hs, He, IH by exact Hl'. reflexivity.
Qed.

(** X21. The first ingest, into a roster as the constructor returns it, of
    a snapshot whose steamIds are pairwise distinct and whose coordinates
    are numbers: the map holds one freshly constructed member for each
    record of the snapshot, in the order of the snapshot. *)
Theorem first_ingest (rpi : RustPlusInstance) (info0 info : rp.AppTeamInfo)
  (c : Clock.t) :
  NoDup (map rp.steamId (rp.members info)) ->
  (forall r, In r (rp.members info) ->
             Js.isNaN (rp.x r) = false /\ Js.isNaN (rp.y r) = false) ->
  TeamInfo.members
    (fst (TeamInfo.updateTeamInfo (TeamInfo.constructor rpi info0) info c))
  = map (fun r => (rp.steamId r, Member.constructor rpi r)) (rp.members info).
Proof.
  intros Hnd Hnum.
  set (t := TeamInfo.constructor rpi info0).
  assert (Hwf : wf t) by apply wf_constructor.
  rewrite updateTeamInfo_eq. cbn [TeamInfo.members].
  destruct (afterLoops_stepped info c Hwf) as [Hs _].
  assert (Hnew : TeamInfo.getNewMembers t info = rp.members info).
  { unfold TeamInfo.getNewMembers. apply filter_all. reflexivity. }
  assert (Hrec : TeamInfo.members (reconciled t info)
                 = map (fun r => (rp.steamId r, Member.constructor rpi r))
                       (rp.members info)).
  { unfold reconciled. cbv zeta. rewrite Hnew.
    set (t1 := fold_left TeamInfo.addMember (rp.members info) t).
    assert (Hm1 : TeamInfo.members t1
                  = map (fun r => (rp.steamId r, Member.constructor rpi r))
                        (rp.members info)).
    { unfold t1. rewrite add_loop_members; [reflexivity | exact Hnd |].
      reflexivity. }
    assert (Hleft : TeamInfo.getLeftMembers t1 info = []).
    { unfold TeamInfo.getLeftMembers. rewrite filter_none; [reflexivity |].
      intros m Hm. unfold JsMap.values in Hm. rewrite Hm1, map_map in Hm.
      apply in_map_iff in Hm. destruct Hm as (r & <- & Hr). cbn [snd].
      apply negb_false_iff, listed_iff, in_map, Hr. }
    rewrite Hleft. exact Hm1. }
  rewrite (stepped_unchanged Hs); [exact Hrec |].
  rewrite Hrec. apply Forall_forall. intros e He.
  apply in_map_iff in He. destruct He as (r & <- & Hr). cbn [snd].
  intros c0. destruct (Hnum r Hr) as [Hx Hy].
  apply selfUpdate_unchanged; auto.
Qed.

Lemma first_ingest_witness :
  NoDup (map rp.steamId
             (rp.members (Sample.snapshot [Sample.a_online; Sample.b_online])))
  /\ (forall r,
        In r (rp.members (Sample.snapshot [Sample.a_online; Sample.b_online]))
        -> Js.isNaN (rp.x r) = false /\ Js.isNaN (rp.y r) = false)
  /\ TeamInfo.members Sample.with_a_and_b
     = [("A"%string, Member.constructor Sample.instance Sample.a_online);
        ("B"%string, Member.constructor Sample.instance Sample.b_online)].
Proof.
  assert (Hnd : NoDup (map rp.steamId
                         (rp.members (Sample.snapshot
                                        [Sample.a_online; Sample.b_online])))).
  { simpl. repeat constructor; simpl; intuition discriminate. }
  assert (Hnum : forall r,
            In r (rp.members (Sample.snapshot
                                [Sample.a_online; Sample.b_online])) ->
            Js.isNaN (rp.x r) = false /\ Js.isNaN (rp.y r) = false).
  { intros r [<- | [<- | []]]; split; reflexivity. }
  split; [exact Hnd | split; [exact Hnum |]].
  exact (@first_ingest Sample.instance (Sample.snapshot [])
           (Sample.snapshot [Sample.a_online; Sample.b_online])
           (Clock.frozen 1000) Hnd Hnum).
Defined.

(** X22. Ingesting a snapshot without members into a well-formed roster
    leaves no member, whoever was in the roster, and
    [getLongestAliveMember] then returns null. *)
Theorem ingest_of_empty_snapshot (t : TeamInfo.t) (info : rp.AppTeamInfo)
  (c c' : Clock.t) :
  wf t ->
  rp.members info = [] ->
  TeamInfo.members (fst (TeamInfo.updateTeamInfo t info c)) = []
  /\ fst (TeamInfo.getLongestAliveMember
            (fst (TeamInfo.updateTeamInfo t info c)) c') = None.
Proof.
  intros Hwf He.
  assert (Hm : TeamInfo.members (fst (TeamInfo.updateTeamInfo t info c)) = []).
  { destruct (TeamInfo.members (fst (TeamInfo.updateTeamInfo t info c)))
      as [| [k m] l] eqn:E; [reflexivity |].
    pose proof (isPlayerInTeam_after info c k Hwf) as H.
    unfold TeamInfo.isPlayerInTeam, JsMap.has in H. rewrite E in H.
    simpl in H. rewrite String.eqb_refl in H.
    unfold TeamInfo.listed, TeamInfo.findMember in H. rewrite He in H.
    discriminate H. }
  split; [exact Hm |].
  unfold TeamInfo.getLongestAliveMember. rewrite Hm. reflexivity.
Qed.

Lemma ingest_of_empty_snapshot_witness :
  wf Sample.with_a_and_b
  /\ rp.members (Sample.snapshot []) = []
  /\ TeamInfo.members
       (fst (TeamInfo.updateTeamInfo Sample.with_a_and_b (Sample.snapshot [])
                                     Sample.ticking)) = [].
Proof.
  assert (Hwf : wf Sample.with_a_and_b)
    by apply updateTeamInfo_wf, wf_constructor.
  split; [exact Hwf | split; [reflexivity |]].
  exact (proj1 (@ingest_of_empty_snapshot Sample.with_a_and_b
                  (Sample.snapshot []) Sample.ticking Sample.ticking
                  Hwf eq_refl)).
Defined.

